(** * DRONEX agent: the MJPEG streaming server and the agent's configuration check

    A shallow embedding of [video_stream.py] (the frame source, its capture
    loop, the per-connection multipart generator and start-up) and of
    [agent.py] (loading and checking the configuration, registration and
    [main]), with the properties the specification states about them and
    further ones the code has.

    Conventions.
    - [bytes] values are lists of bytes; Python [str] values are [string]s.
      The text operations are those of ASCII text: they are exact on
      characters below 128 and leave the others as they are.
    - A method that mutates [self] becomes a function returning the new
      record.  [with self._lock:] makes its body one atomic step, so each
      locked method is one function application.
    - Python [float] values are binary64 floats ([float] of the standard
      library), so a rate can be zero, negative, infinite or not a number.
    - Calls into OpenCV, NumPy and the operating system are answered by an
      explicit environment: the class [OpenCV] for the pure image routines,
      and per-iteration [Cycle] records for what the device, the encoder,
      the clock and the other threads do while the capture loop runs; an
      answer can be an exception. *)

From Stdlib Require Import ZArith QArith Floats Strings.String Strings.Ascii Strings.Byte List Lia.
From stdpp Require Import base option list gmap strings pretty sorting.

Open Scope Z_scope.
Open Scope string_scope.
Open Scope list_scope.

Abbreviation bytes := (list byte).

(** ** Python built-ins used by both programs *)

Module Py.

(** Exceptions that can leave the modelled functions. *)
Inductive Exn :=
| ZeroDivisionError
| ValueError
| TypeError
| KeyError
| OverflowError
| Cv2Error (* [cv2.error] *).

(** [str.isspace] on the 8-bit characters: TAB..CR, FS..US and space. *)
Definition isspace (c : ascii) : bool :=
  let n := N_of_ascii c in
  ((9 <=? n) && (n <=? 13) || (28 <=? n) && (n <=? 32))%N.

Definition isdigit (c : ascii) : bool :=
  let n := N_of_ascii c in ((48 <=? n) && (n <=? 57))%N.

Definition digit_val (c : ascii) : Z := Z.of_N (N_of_ascii c) - 48.

Fixpoint lstrip_ws (s : string) : string :=
  match s with
  | String c r => if isspace c then lstrip_ws r else s
  | EmptyString => s
  end.

(** Removes the trailing run of characters satisfying [p]. *)
Fixpoint rstrip_by (p : ascii -> bool) (s : string) : string :=
  match s with
  | EmptyString => EmptyString
  | String c r =>
      match rstrip_by p r with
      | EmptyString => if p c then EmptyString else String c EmptyString
      | r' => String c r'
      end
  end.

Definition strip_ws (s : string) : string := rstrip_by isspace (lstrip_ws s).

(** [s.rstrip(chars)] for a one-character [chars]. *)
Definition rstrip (ch : ascii) (s : string) : string :=
  rstrip_by (fun c => if ascii_dec c ch then true else false) s.

(** [s.startswith(p)]. *)
Definition startswith (s p : string) : bool := String.prefix p s.

Definition upper_char (c : ascii) : ascii :=
  let n := N_of_ascii c in
  if ((97 <=? n) && (n <=? 122))%N then ascii_of_N (n - 32) else c.

(** [s.upper()]. *)
Fixpoint upper (s : string) : string :=
  match s with
  | EmptyString => EmptyString
  | String c r => String (upper_char c) (upper r)
  end.

(** The digits of a decimal literal: a digit, then digits with at most one
    underscore between two of them.  [acc] is the value read so far and
    [after_digit] tells whether the previous character was a digit. *)
Fixpoint digits (acc : Z) (after_digit : bool) (s : string) : option Z :=
  match s with
  | EmptyString => if after_digit then Some acc else None
  | String c r =>
      if isdigit c then digits (10 * acc + digit_val c) true r
      else if ascii_dec c "_" then
        (if after_digit then
           match r with
           | String d _ => if isdigit d then digits acc false r else None
           | EmptyString => None
           end
         else None)
      else None
  end.

(** The white space [int] skips around an ASCII literal: TAB..CR and
    space.  (FS..US are white space for [str.strip] but not for [int].) *)
Definition int_isspace (c : ascii) : bool :=
  let n := N_of_ascii c in ((9 <=? n) && (n <=? 13) || (n =? 32))%N.

Fixpoint int_lstrip (s : string) : string :=
  match s with
  | String c r => if int_isspace c then int_lstrip r else s
  | EmptyString => s
  end.

(** The number of digit characters of a literal. *)
Fixpoint count_digits (s : string) : nat :=
  match s with
  | EmptyString => 0
  | String c r => if isdigit c then S (count_digits r) else count_digits r
  end.

(** [sys.get_int_max_str_digits()] as the interpreter starts. *)
Definition max_str_digits : nat := 4300.

(** The literal after the white space and the sign. *)
Definition int_literal (r : string) : option Z :=
  if (max_str_digits <? count_digits r)%nat then None else digits 0 false r.

(** [int(s)] for a [str] in base 10: surrounding white space, an optional
    sign, then the digits, no more of them than [max_str_digits].  [None]
    is [ValueError]. *)
Definition int_of_str (s : string) : option Z :=
  match rstrip_by int_isspace (int_lstrip s) with
  | String "-" r => Z.opp <$> int_literal r
  | String "+" r => int_literal r
  | r => int_literal r
  end.

(** [float(n)] for an [int], as the integer it is worth: [n] rounded to
    53 significant bits, ties to even.  (For [n] below 2^1024 in absolute
    value; beyond, the conversion raises.) *)
Definition float_of_int (n : Z) : Z :=
  let a := Z.abs n in
  let bits := Z.log2 a + 1 in
  if (bits <=? 53)%Z then n
  else
    let sh := bits - 53 in
    let q := Z.shiftr a sh in
    let r := a - Z.shiftl q sh in
    let half := Z.shiftl 1 (sh - 1) in
    let q := if (half <? r)%Z || ((r =? half)%Z && Z.odd q) then q + 1 else q in
    Z.sgn n * Z.shiftl q sh.

(** [int(n / 2 ** k)] for [int]s: the true division rounds the quotient
    to a float, which for a power of two is the rounding of [n]; [int]
    truncates towards zero. *)
Definition int_truediv_pow2 (n : Z) (k : Z) : Z :=
  Z.quot (float_of_int n) (2 ^ k).

(** The order of [str]: character by character. *)
Definition str_le (a b : string) : Prop := Is_true (String.leb a b).

#[global] Instance str_le_dec : RelDecision str_le.
Proof. intros a b. unfold str_le. apply _. Defined.

(** [", ".join(l)]. *)
Fixpoint join (sep : string) (l : list string) : string :=
  match l with
  | [] => ""
  | [x] => x
  | x :: r => x ++ sep ++ join sep r
  end.

End Py.

(** ** video_stream.py *)

Module VideoStream.

(** *** OpenCV and NumPy

    The image routines the program calls.  A raw frame is whatever
    [numpy.ndarray] the library hands out; the program never looks
    inside one. *)
Class OpenCV := {
  RawFrame : Type;
  (** [np.zeros(shape, dtype=np.uint8)] *)
  np_zeros : nat * nat * nat -> RawFrame;
  (** [cv2.putText(img, text, org, fontFace, fontScale, color, thickness,
      lineType)]; draws into [img], which is returned here. *)
  cv2_putText :
    RawFrame -> string -> Z * Z -> Z -> Z -> Z * Z * Z -> Z -> Z -> RawFrame;
}.

Definition FONT_HERSHEY_SIMPLEX : Z := 0.
Definition LINE_AA : Z := 16.
Definition CAP_PROP_FRAME_WIDTH : Z := 3.
Definition CAP_PROP_FRAME_HEIGHT : Z := 4.

(** [cv2.VideoCapture]: the handle on the device, with what the program
    did to it.  [releases] counts the calls of [release()], [reads] the
    calls of [read()]. *)
Record VideoCapture := {
  isOpened : bool;
  props : list (Z * Z);
  reads : nat;
  releases : nat;
}.

(** [cv2.VideoCapture(index)]; [hw] tells which indices can be claimed. *)
Definition cv2_VideoCapture (hw : Z -> bool) (index : Z) : VideoCapture :=
  {| isOpened := hw index; props := []; reads := 0; releases := 0 |}.

Definition cap_set (prop value : Z) (cap : VideoCapture) : VideoCapture :=
  {| isOpened := isOpened cap; props := props cap ++ [(prop, value)];
     reads := reads cap; releases := releases cap |}.

Definition cap_count_read (cap : VideoCapture) : VideoCapture :=
  {| isOpened := isOpened cap; props := props cap;
     reads := S (reads cap); releases := releases cap |}.

Definition cap_release (cap : VideoCapture) : VideoCapture :=
  {| isOpened := false; props := props cap;
     reads := reads cap; releases := S (releases cap) |}.

(** *** FrameSource *)

(** The fields of [FrameSource].  [_lock] and [_thread] have no field:
    the lock is the atomicity of [get_latest_jpeg] and [_set_latest], the
    thread is the run of [_capture_loop]. *)
Record FrameSource := {
  camera_index : Z;
  simulation_fps : float;
  _latest_jpeg : option bytes;
  _stop_event : bool;
  _simulation_mode : bool;
}.

(** [FrameSource.__init__] *)
Definition __init__ (camera_index : Z) (simulation_fps : float) : FrameSource :=
  {| camera_index := camera_index;
     simulation_fps := simulation_fps;
     _latest_jpeg := None;
     _stop_event := false;
     _simulation_mode := false |}.

Definition set_latest_jpeg (v : option bytes) (self : FrameSource) :=
  {| camera_index := camera_index self;
     simulation_fps := simulation_fps self;
     _latest_jpeg := v;
     _stop_event := _stop_event self;
     _simulation_mode := _simulation_mode self |}.

Definition set_stop_event (self : FrameSource) :=
  {| camera_index := camera_index self;
     simulation_fps := simulation_fps self;
     _latest_jpeg := _latest_jpeg self;
     _stop_event := true;
     _simulation_mode := _simulation_mode self |}.

Definition set_simulation_mode (v : bool) (self : FrameSource) :=
  {| camera_index := camera_index self;
     simulation_fps := simulation_fps self;
     _latest_jpeg := _latest_jpeg self;
     _stop_event := _stop_event self;
     _simulation_mode := v |}.

(** [FrameSource.stop]: raises the stop event.  The bounded [join] that
    follows only waits; it changes nothing in the frame source. *)
Definition stop (self : FrameSource) : FrameSource := set_stop_event self.

(** [FrameSource.get_latest_jpeg]: the value returned and the frame
    source after the call. *)
Definition get_latest_jpeg (self : FrameSource) : option bytes * FrameSource :=
  (_latest_jpeg self, self).

(** [FrameSource._set_latest] *)
Definition _set_latest (jpeg_bytes : bytes) (self : FrameSource) : FrameSource :=
  set_latest_jpeg (Some jpeg_bytes) self.

Section CaptureLoop.

Context {cv : OpenCV}.

(** [FrameSource._simulation_frame] *)
Definition _simulation_frame : RawFrame :=
  let frame := np_zeros (480%nat, 640%nat, 3%nat) in
  cv2_putText frame "SIMULATION FEED" (40, 240) FONT_HERSHEY_SIMPLEX 1
    (255, 255, 255) 2 LINE_AA.

(** What the loop did, in order: the calls it made to the device, the
    generator, the encoder, the slot and the clock. *)
Inductive Event :=
| EvHwRead (r : option RawFrame)
| EvSynth (f : RawFrame)
| EvEncode (f : RawFrame) (r : option bytes)
| EvPublish (b : bytes)
| EvSleep (d : float)
| EvRelease.

(** What the surroundings answer during one pass of the [while]:
    whether another thread has called [stop()] before the loop test,
    what [cap.read()] returns if it is called ([None] is
    [(False, None)]), what [cv2.imencode(".jpg", frame)] does (it raises,
    or returns, [None] being a false [ok]), and what [time.sleep] does
    with the length it is given ([None]: it sleeps and returns; the
    exception it raises otherwise, as on a negative length, on one too
    large for the clock or on a NaN). *)
Record Cycle := {
  stop_called : bool;
  cap_read : option RawFrame;
  imencode : RawFrame -> Py.Exn + option bytes;
  time_sleep : float -> option Py.Exn;
}.

(** The producer thread's view: the shared frame source, its local
    [cap], and the log of its calls. *)
Record World := {
  self : FrameSource;
  cap : VideoCapture;
  log : list Event;
}.

Definition with_self (f : FrameSource -> FrameSource) (w : World) : World :=
  {| self := f (self w); cap := cap w; log := log w |}.

Definition with_cap (f : VideoCapture -> VideoCapture) (w : World) : World :=
  {| self := self w; cap := f (cap w); log := log w |}.

Definition emit (e : Event) (w : World) : World :=
  {| self := self w; cap := cap w; log := log w ++ [e] |}.

(** How far the thread got. *)
Inductive Outcome :=
| Running (w : World)              (* still inside the [while] *)
| Stopped (w : World)              (* left the [while], returned *)
| Crashed (e : Py.Exn) (w : World) (* an exception ended the thread *).

Definition world_of (o : Outcome) : World :=
  match o with Running w | Stopped w | Crashed _ w => w end.

(** What a pass through statements gives: the next state, or an
    exception raised in the state reached. *)
Inductive Step :=
| Next (w : World)
| Raise (e : Py.Exn) (w : World).

(** [time.sleep(1 / self.simulation_fps)]: the division raises on a rate
    equal to zero (of either sign); otherwise the quotient is the
    rounded one and [time.sleep] answers for it. *)
Definition sleep_cycle (c : Cycle) (w : World) : Step :=
  let fps := simulation_fps (self w) in
  if PrimFloat.eqb fps 0%float then Raise Py.ZeroDivisionError w
  else
    let d := (1 / fps)%float in
    match time_sleep c d with
    | None => Next (emit (EvSleep d) w)
    | Some e => Raise e w
    end.

(** What an encode attempt hands back to the loop: the buffer of a true
    [ok]; nothing when [ok] is false or when the call raised. *)
Definition encoded (c : Cycle) (frame : RawFrame) : option bytes :=
  match imencode c frame with
  | inr r => r
  | inl _ => None
  end.

(** The statements after a frame was acquired: encode, publish on
    success, sleep.  An exception of the encoder leaves the loop at
    once. *)
Definition encode_publish_sleep (c : Cycle) (frame : RawFrame) (w : World)
  : Step :=
  match imencode c frame with
  | inl e => Raise e (emit (EvEncode frame None) w)
  | inr r =>
      let w := emit (EvEncode frame r) w in
      let w :=
        match r with
        | Some buffer => emit (EvPublish buffer) (with_self (_set_latest buffer) w)
        | None => w
        end in
      sleep_cycle c w
  end.

(** The body of the [while]. *)
Definition loop_body (c : Cycle) (w : World) : Step :=
  if _simulation_mode (self w) then
    let frame := _simulation_frame in
    encode_publish_sleep c frame (emit (EvSynth frame) w)
  else
    let w := emit (EvHwRead (cap_read c)) (with_cap cap_count_read w) in
    match cap_read c with
    | None => Next (with_self (set_simulation_mode true) w) (* continue *)
    | Some frame => encode_publish_sleep c frame w
    end.

(** [while not self._stop_event.is_set(): ...], one [Cycle] per test of
    the condition.  When the cycles run out the thread is still in the
    loop. *)
Fixpoint capture_while (cs : list Cycle) (w : World) : Outcome :=
  match cs with
  | [] => Running w
  | c :: cs' =>
      let w := if stop_called c then with_self stop w else w in
      if _stop_event (self w) then Stopped w
      else
        match loop_body c w with
        | Next w' => capture_while cs' w'
        | Raise e w' => Crashed e w'
        end
  end.

(** The statements before the [while]. *)
Definition open_device (hw : Z -> bool) (fs : FrameSource) : World :=
  let cap := cv2_VideoCapture hw (camera_index fs) in
  if negb (isOpened cap) then
    {| self := set_simulation_mode true fs; cap := cap; log := [] |}
  else
    let cap := cap_set CAP_PROP_FRAME_WIDTH 640 cap in
    let cap := cap_set CAP_PROP_FRAME_HEIGHT 480 cap in
    {| self := fs; cap := cap; log := [] |}.

(** The statements after the [while]. *)
Definition close_device (w : World) : World :=
  if negb (_simulation_mode (self w)) then emit EvRelease (with_cap cap_release w)
  else w.

(** [FrameSource._capture_loop] *)
Definition _capture_loop (hw : Z -> bool) (cs : list Cycle) (fs : FrameSource)
  : Outcome :=
  match capture_while cs (open_device hw fs) with
  | Stopped w => Stopped (close_device w)
  | o => o
  end.

End CaptureLoop.

(** *** The stream multiplexer *)

(** The literal [b"--frame\r\nContent-Type: image/jpeg\r\n\r\n"]. *)
Definition part_head : bytes :=
  [x2d; x2d; x66; x72; x61; x6d; x65; x0d; x0a;
   x43; x6f; x6e; x74; x65; x6e; x74; x2d; x54; x79; x70; x65; x3a; x20;
   x69; x6d; x61; x67; x65; x2f; x6a; x70; x65; x67; x0d; x0a; x0d; x0a]%byte.

(** The literal [b"\r\n"]. *)
Definition part_tail : bytes := [x0d; x0a]%byte.

(** What one pass of the [while True] of [mjpeg_stream] does: sleep and
    go round again, or yield a part. *)
Inductive Poll :=
| Backoff (seconds : Q)
| Yield (part : bytes).

(** One pass of the [while True]; [frame_source] is the module-level
    global as the pass finds it. *)
Definition mjpeg_stream_pass (frame_source : option FrameSource) : Poll :=
  match frame_source with
  | None => Backoff (1 # 10)
  | Some fs =>
      match fst (get_latest_jpeg fs) with
      | None => Backoff (5 # 100)
      | Some jpeg => Yield (part_head ++ jpeg ++ part_tail)
      end
  end.

(** One [next()] on the generator [mjpeg_stream()]: passes are made until
    one yields.  [views] is the global [frame_source] as each successive
    pass finds it (other threads run during the sleeps).  The result is
    the sleeps made and the part yielded; no part when the views run out
    with the generator still polling. *)
Fixpoint mjpeg_stream (views : list (option FrameSource)) : list Q * option bytes :=
  match views with
  | [] => ([], None)
  | v :: views' =>
      match mjpeg_stream_pass v with
      | Yield part => ([], Some part)
      | Backoff d => let '(ds, r) := mjpeg_stream views' in (d :: ds, r)
      end
  end.

(** [flask.Response] as far as [stream] fills it in. *)
Record Response := {
  response : list (option FrameSource) -> list Q * option bytes;
  mimetype : string;
}.

(** The view function [stream]. *)
Definition stream : Response :=
  {| response := mjpeg_stream;
     mimetype := "multipart/x-mixed-replace; boundary=frame" |}.

(** The routes registered on [app]. *)
Definition url_map : list (string * Response) := [("/stream.mjpg", stream)].

(** *** Start-up *)

(** The parsed command line: [args]. *)
Record Namespace := {
  host : string;
  port : Z;
  camera : Z;
  fps : float;
}.

(** The options given on the command line, each with the text given for
    it; [None] where the option is absent.  (The command line holds these
    options and nothing else.) *)
Record Argv := {
  opt_host : option string;
  opt_port : option string;
  opt_camera : option string;
  opt_fps : option string;
}.

Definition no_options : Argv :=
  {| opt_host := None; opt_port := None; opt_camera := None; opt_fps := None |}.

(** [os.getenv(name, fallback)] *)
Definition os_getenv (environ : string -> option string) (name fallback : string)
  : string :=
  default fallback (environ name).

(** How [main] can end before the server runs: an exception nothing
    catches, or the exit of the parser on a command line it refuses. *)
Inductive Abort :=
| Uncaught (e : Py.Exn)
| ParserExit (status : Z).

(** The value of an option declared with [type=type] and
    [default=dflt]: the default as it is when the option is absent, the
    converted text when it is given; [None] when the conversion raises
    [ValueError], which the parser turns into its error exit. *)
Definition option_value {A} (type : string -> option A) (dflt : A)
    (given : option string) : option A :=
  match given with
  | None => Some dflt
  | Some text => type text
  end.

Section StartUp.

(** [float(s)] for a [str]; [None] is [ValueError]. *)
Variable float_of_str : string -> option float.

(** The parser of [main] applied to the command line.  The default of
    [--port] is computed when the option is declared, so a value of
    [MJPEG_PORT] that [int] rejects raises before anything is parsed. *)
Definition parse_args (environ : string -> option string) (argv : Argv)
  : Abort + Namespace :=
  match Py.int_of_str (os_getenv environ "MJPEG_PORT" "8080") with
  | None => inl (Uncaught Py.ValueError)
  | Some port_default =>
      match option_value Py.int_of_str port_default (opt_port argv),
            option_value Py.int_of_str 0 (opt_camera argv),
            option_value float_of_str 10%float (opt_fps argv) with
      | Some port, Some camera, Some fps =>
          inr {| host := default "0.0.0.0" (opt_host argv);
                 port := port;
                 camera := camera;
                 fps := fps |}
      | _, _, _ => inl (ParserExit 2)
      end
  end.

(** The process as [main] reaches [app.run]: the global [frame_source],
    on which the capture thread has been started, and the arguments
    passed to [app.run]. *)
Record Process := {
  frame_source : option FrameSource;
  bind_host : string;
  bind_port : Z;
  threaded : bool;
}.

(** [main] *)
Definition main (environ : string -> option string) (argv : Argv)
  : Abort + Process :=
  match parse_args environ argv with
  | inl e => inl e
  | inr args =>
      inr {| frame_source := Some (__init__ (camera args) (fps args));
             bind_host := host args;
             bind_port := port args;
             threaded := true |}
  end.

End StartUp.

(** *** Notions the properties are stated with *)

Section Observations.

Context {cv : OpenCV}.

(** The frame a pass acquires: the generated one in simulation mode, the
    device's otherwise. *)
Definition acquire (c : Cycle) (w : World) : option RawFrame :=
  if _simulation_mode (self w) then Some _simulation_frame else cap_read c.

(** The log entry of that acquisition. *)
Definition acquired_event (w : World) (frame : RawFrame) : Event :=
  if _simulation_mode (self w) then EvSynth frame else EvHwRead (Some frame).

(** The buffers passed to [_set_latest], oldest first. *)
Fixpoint published (l : list Event) : list bytes :=
  match l with
  | [] => []
  | EvPublish b :: l' => b :: published l'
  | _ :: l' => published l'
  end.

(** The number of frames taken from the generator. *)
Fixpoint count_synth (l : list Event) : nat :=
  match l with
  | [] => 0
  | EvSynth _ :: l' => S (count_synth l')
  | _ :: l' => count_synth l'
  end.

(** The number of calls of [cap.read()]. *)
Fixpoint count_hw_reads (l : list Event) : nat :=
  match l with
  | [] => 0
  | EvHwRead _ :: l' => S (count_hw_reads l')
  | _ :: l' => count_hw_reads l'
  end.

(** An entry that fits a synthetic session: no device read, and only the
    generated frame is made or encoded. *)
Definition synthetic_only (e : Event) : Prop :=
  match e with
  | EvHwRead _ => False
  | EvSynth f => f = _simulation_frame
  | EvEncode f _ => f = _simulation_frame
  | _ => True
  end.

(** The two ways into simulation mode: [entered_synthetic hw fs pre w]
    holds when the loop started on [fs] has made the passes [pre], is still
    running in the state [w], and either the device did not open or the
    last pass was a failed [cap.read()]. *)
Inductive entered_synthetic (hw : Z -> bool) (fs : FrameSource)
  : list Cycle -> World -> Prop :=
| by_open_failure :
    hw (camera_index fs) = false ->
    entered_synthetic hw fs [] (open_device hw fs)
| by_read_failure pre c w w' :
    capture_while pre (open_device hw fs) = Running w ->
    _simulation_mode (self w) = false ->
    stop_called c = false ->
    _stop_event (self w) = false ->
    cap_read c = None ->
    loop_body c w = Next w' ->
    entered_synthetic hw fs (pre ++ [c]) w'.

(** [_set_latest] called once per buffer, in order. *)
Definition publish_all (frames : list bytes) (fs : FrameSource) : FrameSource :=
  foldl (fun s b => _set_latest b s) fs frames.

(** Everything in the program that touches a frame source: the calls of its
    methods from any thread and the steps of its producer thread.  (A pass
    of [mjpeg_stream] reaches it through [get_latest_jpeg] only.) *)
Inductive Op :=
| OpSetLatest (b : bytes)
| OpGetLatest
| OpStop
| OpOpen (hw : Z -> bool)
| OpPass (c : Cycle)
| OpClose.

Definition step_world (s : Step) : World :=
  match s with Next w | Raise _ w => w end.

Definition apply_op (w : World) (op : Op) : World :=
  match op with
  | OpSetLatest b => with_self (_set_latest b) w
  | OpGetLatest => with_self (fun fs => snd (get_latest_jpeg fs)) w
  | OpStop => with_self stop w
  | OpOpen hw => open_device hw (self w)
  | OpPass c => step_world (loop_body c w)
  | OpClose => close_device w
  end.

Definition run_ops (ops : list Op) (w : World) : World := foldl apply_op w ops.

(** The slot is empty as [mjpeg_stream] sees it. *)
Definition slot_empty (frame_source : option FrameSource) : bool :=
  match frame_source with
  | None => true
  | Some fs => match _latest_jpeg fs with None => true | Some _ => false end
  end.

End Observations.

(** The part format as the interface description gives it. *)
Definition CRLF : bytes := [x0d; x0a]%byte.

Definition multipart_section (jpeg : bytes) : bytes :=
  list_byte_of_string "--frame" ++ CRLF
  ++ list_byte_of_string "Content-Type: image/jpeg" ++ CRLF ++ CRLF
  ++ jpeg ++ CRLF.

End VideoStream.

(** ** agent.py: the configuration check *)

Module Agent.

Definition DEFAULT_TELEMETRY_INTERVAL : Z := 5.

(** A value found in the configuration.  JSON and YAML give [None],
    booleans, integers and strings; any other object (a float, a list, a
    mapping, a date) is [VOther], described by the two things
    [validate_config] can ask of it: its [str()] and its [int()], which
    is an integer or an exception ([OverflowError] for an infinite float,
    [ValueError] for a NaN, [TypeError] for a list). *)
Inductive Value :=
| VNone
| VBool (b : bool)
| VInt (n : Z)
| VStr (s : string)
| VOther (shown : string) (as_int : Py.Exn + Z).

(** [str(v)] *)
Definition str (v : Value) : string :=
  match v with
  | VNone => "None"
  | VBool true => "True"
  | VBool false => "False"
  | VInt n => pretty n
  | VStr s => s
  | VOther shown _ => shown
  end.

(** [int(v)] *)
Definition int (v : Value) : Py.Exn + Z :=
  match v with
  | VNone => inl Py.TypeError
  | VBool b => inr (if b then 1 else 0)
  | VInt n => inr n
  | VStr s =>
      match Py.int_of_str s with
      | Some n => inr n
      | None => inl Py.ValueError
      end
  | VOther _ as_int => as_int
  end.

(** How a call of [validate_config] ends. *)
Inductive Result :=
| Return (config : gmap string Value)
| ConfigError (message : string)
| OtherError (e : Py.Exn).

Definition required_keys : gset string :=
  {[ "DRONEX_URL"; "DRONE_ID"; "DRONE_TOKEN"; "MODE"; "TELEMETRY_INTERVAL" ]}.

(** [sorted(s)] for a set of strings. *)
Definition sorted (s : gset string) : list string :=
  merge_sort Py.str_le (elements s).

(** [validate_config] *)
Definition validate_config (config : gmap string Value) : Result :=
  let missing := required_keys ∖ dom config in
  if decide (missing = ∅) then
    match config !! "DRONEX_URL" with
    | None => OtherError Py.KeyError
    | Some url =>
        let dronex_url := Py.rstrip "/" (str url) in
        if negb (Py.startswith dronex_url "https://") then
          ConfigError "DRONEX_URL must start with https://"
        else
          match config !! "MODE" with
          | None => OtherError Py.KeyError
          | Some m =>
              let mode := Py.upper (str m) in
              if negb (bool_decide (mode ∈ ["SIMULATION"; "MAVLINK"])) then
                ConfigError "MODE must be SIMULATION or MAVLINK"
              else
                match int (default (VInt DEFAULT_TELEMETRY_INTERVAL)
                             (config !! "TELEMETRY_INTERVAL")) with
                | inl e => OtherError e
                | inr interval =>
                    if (interval <=? 0)%Z then
                      ConfigError "TELEMETRY_INTERVAL must be > 0"
                    else
                      Return (<["TELEMETRY_INTERVAL" := VInt interval]>
                                (<["MODE" := VStr mode]>
                                   (<["DRONEX_URL" := VStr dronex_url]> config)))
                end
          end
    end
  else
    ConfigError ("Missing config keys: " ++ Py.join ", " (sorted missing)).

(** *** Notions the properties are stated with *)







End Agent.

(** ** Sample inputs *)

Module Samples.

Import VideoStream.

(** A stand-in for the image library: frames are numbered, drawing gives
    the next number. *)
Definition toy_cv : OpenCV :=
  {| RawFrame := nat;
     np_zeros := fun _ => 0%nat;
     cv2_putText := fun img _ _ _ _ _ _ _ => S img |}.

Definition jpeg_a : bytes := [xff; xd8; x01; xff; xd9]%byte.
Definition jpeg_b : bytes := [xff; xd8; x02; xff; xd9]%byte.

(** A pass in which the device delivers frame 7 and the encoder works. *)
Definition good_pass : @Cycle toy_cv :=
  @Build_Cycle toy_cv false (Some 7%nat)
    (fun f => inr (Some (if Nat.eqb f 7 then jpeg_a else jpeg_b)))
    (fun _ => None).

(** A pass in which the device would deliver, but the encoder reports a
    false [ok]. *)
Definition encode_fails : @Cycle toy_cv :=
  @Build_Cycle toy_cv false (Some 7%nat) (fun _ => inr None) (fun _ => None).

(** A pass in which the device would deliver, but the encoder raises
    [cv2.error]. *)
Definition encode_raises : @Cycle toy_cv :=
  @Build_Cycle toy_cv false (Some 7%nat) (fun _ => inl Py.Cv2Error)
    (fun _ => None).

(** A pass in which the encoder works and [time.sleep] refuses the length:
    too large for the clock when it is positive, negative otherwise. *)
Definition sleep_refuses : @Cycle toy_cv :=
  @Build_Cycle toy_cv false (Some 7%nat) (fun _ => inr (Some jpeg_a))
    (fun d => Some (if PrimFloat.ltb 0%float d then Py.OverflowError
                    else Py.ValueError)).

(** A pass in which [cap.read()] fails. *)
Definition read_fails : @Cycle toy_cv :=
  @Build_Cycle toy_cv false None (fun _ => inr (Some jpeg_b)) (fun _ => None).

(** A pass before which [stop()] was called. *)
Definition stop_pass : @Cycle toy_cv :=
  @Build_Cycle toy_cv true (Some 7%nat) (fun _ => inr (Some jpeg_a))
    (fun _ => None).

Definition camera_present : Z -> bool := fun _ => true.
Definition camera_absent : Z -> bool := fun _ => false.

Definition fresh : FrameSource := __init__ 0 10%float.

Import Agent.

Definition config_ok : gmap string Value :=
  {[ "DRONEX_URL" := VStr "https://dronex.example/";
     "DRONE_ID" := VStr "drone-1";
     "DRONE_TOKEN" := VStr "secret";
     "MODE" := VStr "simulation";
     "TELEMETRY_INTERVAL" := VInt 5;
     "LABEL" := VStr "north" ]}.


End Samples.

(** ** video_stream.py: reading the log and the stream *)

Module VideoStreamTrace.

Import VideoStream.

#[global] Instance byte_eq_decision : EqDecision byte := Byte.byte_eq_dec.

Section Trace.

Context {cv : OpenCV}.

(** The number of completed [time.sleep] calls. *)
Fixpoint count_sleeps (l : list Event) : nat :=
  match l with
  | [] => 0
  | EvSleep _ :: l' => S (count_sleeps l')
  | _ :: l' => count_sleeps l'
  end.

(** The number of calls of [cv2.imencode]. *)
Fixpoint count_encodes (l : list Event) : nat :=
  match l with
  | [] => 0
  | EvEncode _ _ :: l' => S (count_encodes l')
  | _ :: l' => count_encodes l'
  end.

(** The number of calls of [cap.release()]. *)
Fixpoint count_releases (l : list Event) : nat :=
  match l with
  | [] => 0
  | EvRelease :: l' => S (count_releases l')
  | _ :: l' => count_releases l'
  end.

(** The buffers [cv2.imencode] returned with a true [ok], oldest first. *)
Fixpoint encoded_ok (l : list Event) : list bytes :=
  match l with
  | [] => []
  | EvEncode _ (Some b) :: l' => b :: encoded_ok l'
  | _ :: l' => encoded_ok l'
  end.

(** What the entries of one pass add up to. *)
Definition pass_accounts (s : Step) (w : World) (evs : list Event) : Prop :=
  log (step_world s) = log w ++ evs
  /\ reads (cap (step_world s)) = (reads (cap w) + count_hw_reads evs)%nat
  /\ props (cap (step_world s)) = props (cap w)
  /\ published evs = encoded_ok evs
  /\ count_releases evs = 0%nat
  /\ match s with
     | Next _ => count_sleeps evs = count_encodes evs
     | Raise _ _ => count_sleeps evs = 0%nat /\ count_encodes evs = 1%nat
     end.

(** Whether a pass that got [frame] reaches its end: the encoder returns,
    the rate is not zero and the clock takes the length. *)
Definition pass_completes (fps : float) (c : Cycle) (frame : RawFrame) : bool :=
  match imencode c frame with
  | inl _ => false
  | inr _ =>
      negb (PrimFloat.eqb fps 0)
      && match time_sleep c (1 / fps)%float with None => true | Some _ => false end
  end.

(** The passes of a session on the device that get as far as asking it for
    a frame: every pass up to the first one that finds the stop requested,
    whose read fails, or that does not reach its end; the last two are
    counted, they did ask. *)
Fixpoint hardware_passes (fps : float) (cs : list Cycle) : nat :=
  match cs with
  | [] => 0
  | c :: cs' =>
      if stop_called c then 0%nat
      else S (match cap_read c with
              | None => 0
              | Some frame =>
                  if pass_completes fps c frame then hardware_passes fps cs'
                  else 0
              end)
  end.

End Trace.

(** The passes of a [next()] that find nothing to send: the views up to the
    first one with a frame in the slot. *)
Fixpoint leading_empty (views : list (option FrameSource))
  : list (option FrameSource) :=
  match views with
  | v :: views' => if slot_empty v then v :: leading_empty views' else []
  | [] => []
  end.

(** The first view with a frame in the slot, if there is one. *)
Fixpoint first_frame (views : list (option FrameSource)) : option bytes :=
  match views with
  | v :: views' =>
      if slot_empty v then first_frame views'
      else match v with Some fs => _latest_jpeg fs | None => None end
  | [] => None
  end.

(** The sleep a pass makes on a view with nothing to send: 0.1 s when the
    global is unset, 0.05 s when the slot is empty. *)
Definition backoff_for (v : option FrameSource) : Q :=
  match v with None => 1 # 10 | Some _ => 5 # 100 end.

(** Reading a part back: the bytes between the head and the tail, when the
    part has both. *)
Definition part_payload (part : bytes) : option bytes :=
  let body := drop (length part_head) part in
  let n := (length body - length part_tail)%nat in
  if decide (take (length part_head) part = part_head /\ drop n body = part_tail)
  then Some (take n body)
  else None.

End VideoStreamTrace.

(** ** Paths: [os.path.splitext] on a POSIX system *)

Module PyPath.

Definition lower_char (c : ascii) : ascii :=
  let n := N_of_ascii c in
  if ((65 <=? n) && (n <=? 90))%N then ascii_of_N (n + 32) else c.

(** [s.lower()] *)
Fixpoint lower (s : string) : string :=
  match s with
  | EmptyString => EmptyString
  | String c r => String (lower_char c) (lower r)
  end.

(** [s[:n]] and [s[n:]] for [n] not negative. *)
Fixpoint take (n : nat) (s : string) : string :=
  match n, s with
  | S n', String c r => String c (take n' r)
  | _, _ => EmptyString
  end.

Fixpoint drop (n : nat) (s : string) : string :=
  match n, s with
  | S n', String _ r => drop n' r
  | _, _ => s
  end.

(** [s[i:j]] for [i] and [j] not negative. *)
Definition slice (i j : nat) (s : string) : string := take (j - i) (drop i s).

(** The index of the last [ch] in [s], if there is one. *)
Fixpoint last_index (ch : ascii) (s : string) : option nat :=
  match s with
  | EmptyString => None
  | String c r =>
      match last_index ch r with
      | Some i => Some (S i)
      | None => if ascii_dec c ch then Some 0%nat else None
      end
  end.

(** [s.rfind(ch)]: the index of the last [ch], or -1. *)
Definition rfind (ch : ascii) (s : string) : Z :=
  match last_index ch s with
  | Some i => Z.of_nat i
  | None => -1
  end.

(** Some character of [s] is not a dot. *)
Fixpoint has_non_dot (s : string) : bool :=
  match s with
  | EmptyString => false
  | String c r => if ascii_dec c "." then has_non_dot r else true
  end.

(** [os.path.splitext(p)]: the extension starts at the last dot, provided
    that dot comes after the last slash and after a character of the file
    name that is not a dot; otherwise there is no extension. *)
Definition splitext (p : string) : string * string :=
  let sepIndex := rfind "/" p in
  let dotIndex := rfind "." p in
  if (sepIndex <? dotIndex)%Z
     && has_non_dot (slice (Z.to_nat (sepIndex + 1)) (Z.to_nat dotIndex) p)
  then (take (Z.to_nat dotIndex) p, drop (Z.to_nat dotIndex) p)
  else (p, "").

(** [ch in s] *)
Fixpoint contains (ch : ascii) (s : string) : bool :=
  match s with
  | EmptyString => false
  | String c r => if ascii_dec c ch then true else contains ch r
  end.

(** [s.endswith(ch)] for one character. *)
Fixpoint endswith (ch : ascii) (s : string) : bool :=
  match s with
  | EmptyString => false
  | String c EmptyString => if ascii_dec c ch then true else false
  | String _ r => endswith ch r
  end.

(** The file name of a path: what follows the last slash. *)
Definition basename (p : string) : string :=
  drop (Z.to_nat (rfind "/" p + 1)) p.

End PyPath.

(** ** agent.py: loading the configuration, registering, [main] *)

Module AgentRun.

Import Agent.

Definition AGENT_VERSION : string := "1.0.0".
Definition REGISTER_RETRY_SECONDS : Z := 10.
Definition DEFAULT_TIMEOUT : Z := 10.

(** An exception on its way out of a function of the agent. *)
Inductive Raised :=
| RaisedConfigError (message : string)
| RaisedJSONDecodeError (shown : string)
| RaisedBuiltin (e : Py.Exn)
| RaisedOther (name : string).

(** The machine the agent runs on, as [load_config] and [get_system_info]
    see it.  [Handle] is an open text file, [Loaded] whatever a parser
    returns. *)
Class Host := {
  Handle : Type;
  Loaded : Type;
  (** [os.path.exists] *)
  path_exists : string -> bool;
  (** [open(path, "r", encoding="utf-8")] *)
  open_text : string -> Raised + Handle;
  (** [json.load] *)
  json_load : Handle -> Raised + Loaded;
  (** whether [import yaml] finds the module *)
  yaml_installed : bool;
  (** [yaml.safe_load] *)
  yaml_safe_load : Handle -> Raised + Loaded;
  (** A loaded value as [validate_config] can use it: its string keys when
      it is a mapping; [None] when it has no [keys()]. *)
  as_mapping : Loaded -> option (gmap string Value);
  (** [socket.gethostname()], [platform.system()], [platform.release()],
      [platform.processor()], [psutil.cpu_count(logical=True)] and
      [psutil.virtual_memory().total] *)
  gethostname : string;
  platform_system : string;
  platform_release : string;
  platform_processor : string;
  cpu_count : option Z;
  memory_total : Z;
}.

Section OnHost.

Context {host : Host}.

(** [load_config] *)
Definition load_config (path : string) : Raised + Loaded :=
  if negb (path_exists path) then
    inl (RaisedConfigError ("Config file not found: " ++ path))
  else
    let ext := PyPath.lower (snd (PyPath.splitext path)) in
    if bool_decide (ext ∈ [".json"; ""]) then
      match open_text path with
      | inl e => inl e
      | inr handle => json_load handle
      end
    else if bool_decide (ext ∈ [".yaml"; ".yml"]) then
      if negb yaml_installed then
        inl (RaisedConfigError
               "PyYAML is required for YAML configs. Install pyyaml or use JSON config.")
      else
        match open_text path with
        | inl e => inl e
        | inr handle => yaml_safe_load handle
        end
    else inl (RaisedConfigError "Config must be .json or .yaml").

(** [validate_config] on what [load_config] returned. *)
Definition validate_loaded (loaded : Loaded) : Raised + gmap string Value :=
  match as_mapping loaded with
  | None => inl (RaisedOther "AttributeError")
  | Some config =>
      match validate_config config with
      | Return config' => inr config'
      | ConfigError message => inl (RaisedConfigError message)
      | OtherError e => inl (RaisedBuiltin e)
      end
  end.

(** The result of [get_system_info]. *)
Record SystemInfo := {
  hostname : string;
  os : string;
  cpu : string;
  ram_mb : Z;
}.

(** [get_system_info].  [1024 * 1024] is 2^20. *)
Definition get_system_info : SystemInfo :=
  {| hostname := gethostname;
     os := (platform_system ++ " " ++ platform_release)%string;
     cpu := if bool_decide (platform_processor = "") then
              ("cpu_count:" ++ match cpu_count with
                               | Some n => pretty n
                               | None => "None"
                               end)%string
            else platform_processor;
     ram_mb := Py.int_truediv_pow2 memory_total 20 |}.

End OnHost.

(** [build_headers] *)
Definition build_headers (token : Value) : list (string * string) :=
  [("Authorization", ("Bearer " ++ str token)%string);
   ("Content-Type", "application/json");
   ("User-Agent", ("DRONEX-Agent/" ++ AGENT_VERSION)%string)].

(** The body of the registration request. *)
Record Payload := {
  drone_id : Value;
  agent_version : string;
  mode : Value;
  system : SystemInfo;
}.

(** The arguments of one [session.post]. *)
Record Request := {
  url : string;
  headers : list (string * string);
  json : Payload;
  timeout : Z;
}.

(** What the server does with one request: a response, or an exception
    under [requests.RequestException]. *)
Inductive Answer :=
| Responded (status_code : Z) (text : string)
| RequestException (shown : string).

Inductive Level := INFO | WARNING | ERROR.

(** What the agent does, in order. *)
Inductive Action :=
| Post (r : Request)
| Log (level : Level) (message : string)
| Sleep (seconds : Z).

(** The [while True] of [register_agent], one answer per pass; the flag
    tells whether the function has returned. *)
Fixpoint register_loop (r : Request) (answers : list Answer)
  : list Action * bool :=
  match answers with
  | [] => ([], false)
  | Responded status_code text :: answers' =>
      if (status_code =? 200)%Z then
        ([Post r; Log INFO "Registro exitoso en DRONEX"], true)
      else
        let '(acts, returned) := register_loop r answers' in
        (Post r
           :: Log ERROR ("Registro falló (" ++ pretty status_code ++ "): "
                           ++ Py.strip_ws text)
           :: Log INFO ("Reintentando registro en "
                          ++ pretty REGISTER_RETRY_SECONDS ++ " segundos...")
           :: Sleep REGISTER_RETRY_SECONDS :: acts, returned)
  | RequestException shown :: answers' =>
      let '(acts, returned) := register_loop r answers' in
      (Post r
         :: Log WARNING ("Error de red al registrar: " ++ shown)
         :: Log INFO ("Reintentando registro en "
                        ++ pretty REGISTER_RETRY_SECONDS ++ " segundos...")
         :: Sleep REGISTER_RETRY_SECONDS :: acts, returned)
  end.

(** [register_agent]: [config[...]] raises [KeyError] on a missing key,
    [DRONE_TOKEN] is looked up in the first pass, before anything is
    sent. *)
Definition register_agent (info : SystemInfo) (config : gmap string Value)
    (answers : list Answer) : Raised + list Action * bool :=
  match config !! "DRONEX_URL", config !! "DRONE_ID", config !! "MODE",
        config !! "DRONE_TOKEN" with
  | Some base, Some id, Some m, Some token =>
      inr (register_loop
             {| url := (str base ++ "/api/agent/register/")%string;
                headers := build_headers token;
                json := {| drone_id := id; agent_version := AGENT_VERSION;
                           mode := m; system := info |};
                timeout := DEFAULT_TIMEOUT |}
             answers)
  | _, _, _, _ => inl (RaisedBuiltin Py.KeyError)
  end.

(** [v == s] for a string [s]: only an equal string is equal to it. *)
Definition equals_str (s : string) (v : Value) : bool :=
  match v with
  | VStr s' => String.eqb s' s
  | _ => false
  end.

(** How a run of [main] stands when the answers run out. *)
Inductive Ending :=
| SystemExit (code : Z)
| Uncaught (e : Raised)
| Registering
| InTelemetryLoop (config : gmap string Value).

Section Main.

Context {host : Host}.

(** [main], up to the call of [telemetry_loop].  [argv] is the value of
    [--config], which the parser requires; [setup_logging] is taken to
    succeed. *)
Definition main (argv : option string) (answers : list Answer)
  : list Action * Ending :=
  match argv with
  | None => ([], SystemExit 2)
  | Some path =>
      let checked :=
        match load_config path with
        | inl e => inl e
        | inr loaded => validate_loaded loaded
        end in
      match checked with
      | inl (RaisedConfigError shown) | inl (RaisedJSONDecodeError shown) =>
          ([Log ERROR ("Error en configuración: " ++ shown)], SystemExit 1)
      | inl e => ([], Uncaught e)
      | inr config =>
          let hello := Log INFO ("Iniciando DRONEX Agent " ++ AGENT_VERSION) in
          match config !! "DRONE_ID" with
          | None => ([hello], Uncaught (RaisedBuiltin Py.KeyError))
          | Some id =>
              match config !! "MODE" with
              | None =>
                  ([hello; Log INFO ("DRONE_ID: " ++ str id)],
                   Uncaught (RaisedBuiltin Py.KeyError))
              | Some m =>
                  let greeting :=
                    [hello;
                     Log INFO ("DRONE_ID: " ++ str id);
                     Log INFO ("MODE: " ++ str m)] in
                  match register_agent get_system_info config answers with
                  | inl e => (greeting, Uncaught e)
                  | inr (acts, false) => (greeting ++ acts, Registering)
                  | inr (acts, true) =>
                      if equals_str "SIMULATION" m then
                        (greeting ++ acts, InTelemetryLoop config)
                      else
                        (greeting ++ acts
                           ++ [Log ERROR
                                 "MAVLINK mode no implementado aún. Usa SIMULATION."],
                         SystemExit 1)
                  end
              end
          end
      end
  end.

End Main.

(** The requests among the actions. *)
Fixpoint posts (acts : list Action) : list Request :=
  match acts with
  | [] => []
  | Post r :: acts' => r :: posts acts'
  | _ :: acts' => posts acts'
  end.

(** The sleeps among the actions. *)
Fixpoint sleeps (acts : list Action) : list Z :=
  match acts with
  | [] => []
  | Sleep n :: acts' => n :: sleeps acts'
  | _ :: acts' => sleeps acts'
  end.

(** The answer is a response with status 200. *)
Definition accepted (a : Answer) : bool :=
  match a with
  | Responded status_code _ => (status_code =? 200)%Z
  | RequestException _ => false
  end.

(** The answers up to the first accepted one, not included. *)
Fixpoint refused (answers : list Answer) : list Answer :=
  match answers with
  | a :: answers' => if accepted a then [] else a :: refused answers'
  | [] => []
  end.

End AgentRun.

(** ** Sample inputs for the agent *)

Module AgentSamples.

Import Agent AgentRun.

(** A configuration that validates, with [MODE] set to MAVLINK. *)
Definition config_mavlink : gmap string Value :=
  <["MODE" := VStr "mavlink"]> Samples.config_ok.

(** A machine with two configuration files, both holding [config_ok]
    except that the YAML one asks for MAVLINK, and no PyYAML. *)
Definition toy_host (with_yaml : bool) : Host :=
  {| Handle := string;
     Loaded := gmap string Value;
     path_exists := fun p =>
       String.eqb p "/etc/dronex/agent.JSON" || String.eqb p "/etc/dronex/agent.yml"
       || String.eqb p "/home/pi/.agent";
     open_text := fun p => inr p;
     json_load := fun _ => inr Samples.config_ok;
     yaml_installed := with_yaml;
     yaml_safe_load := fun _ => inr config_mavlink;
     as_mapping := Some;
     gethostname := "drone-1";
     platform_system := "Linux";
     platform_release := "6.1";
     platform_processor := "";
     cpu_count := Some 4;
     memory_total := 4096 * 1024 * 1024 |}.

Definition answers_third_time : list Answer :=
  [RequestException "timed out"; Responded 503 " busy "; Responded 200 "ok";
   Responded 500 "late"].

End AgentSamples.

(** ** The built-ins on sample arguments *)

Module PyFacts.

Example int_of_str_plain : Py.int_of_str "8080" = Some 8080.
Proof. reflexivity. Qed.

Example int_of_str_signed :
  Py.int_of_str "-15" = Some (-15) /\ Py.int_of_str " +7 " = Some 7.
Proof. split; reflexivity. Qed.

Example int_of_str_underscores :
  Py.int_of_str "1_000" = Some 1000
  /\ Py.int_of_str "1__0" = None
  /\ Py.int_of_str "_1" = None
  /\ Py.int_of_str "1_" = None.
Proof. repeat split; reflexivity. Qed.

Example int_of_str_rejects :
  Py.int_of_str "" = None
  /\ Py.int_of_str "+" = None
  /\ Py.int_of_str "- 5" = None
  /\ Py.int_of_str "80a" = None
  /\ Py.int_of_str "8.0" = None.
Proof. repeat split; reflexivity. Qed.

Example int_of_str_white_space :
  Py.int_of_str (String (ascii_of_nat 9) "5" ++ String (ascii_of_nat 11) "")
  = Some 5
  /\ Py.int_of_str (String (ascii_of_nat 31) "5") = None
  /\ Py.int_of_str (String (ascii_of_nat 28) "5") = None
  /\ Py.strip_ws (String (ascii_of_nat 31) "5") = "5".
Proof. repeat split; reflexivity. Qed.

(** The cap on digits: 4300 pass, 4301 do not; leading zeros count, the
    sign and underscores do not. *)
Example int_of_str_digit_cap :
  let ones n := String.concat "" (replicate n "1") in
  Py.int_of_str (ones 4300%nat) <> None
  /\ Py.int_of_str (ones 4301%nat) = None
  /\ Py.int_of_str ("-" ++ ones 4300%nat) <> None
  /\ Py.int_of_str (String.concat "" (replicate 4301%nat "0")) = None
  /\ Py.int_of_str (String.concat "_" (replicate 4300%nat "1")) <> None.
Proof. by vm_compute. Qed.

Example float_of_int_rounds :
  Py.float_of_int (2 ^ 53 + 1) = 2 ^ 53
  /\ Py.float_of_int (2 ^ 53 + 3) = 2 ^ 53 + 4
  /\ Py.float_of_int (- (2 ^ 53 + 3)) = - (2 ^ 53 + 4)
  /\ Py.float_of_int (2 ^ 53) = 2 ^ 53
  /\ Py.int_truediv_pow2 (4096 * 1024 * 1024) 20 = 4096
  /\ Py.int_truediv_pow2 (2 ^ 73 - 1) 20 = 2 ^ 53
  /\ Py.int_truediv_pow2 (2 ^ 20 - 1) 20 = 0.
Proof. by vm_compute. Qed.

Example rstrip_slashes :
  Py.rstrip "/" "https://x.io//" = "https://x.io"
  /\ Py.rstrip "/" "/a/b" = "/a/b"
  /\ Py.rstrip "/" "https://" = "https:"
  /\ Py.rstrip "/" "///" = "".
Proof. repeat split; reflexivity. Qed.

Example upper_mixed : Py.upper "maVlink_1" = "MAVLINK_1".
Proof. reflexivity. Qed.

Example sorted_keys :
  Agent.sorted {[ "MODE"; "DRONE_TOKEN"; "DRONEX_URL"; "DRONE_ID" ]}
  = ["DRONEX_URL"; "DRONE_ID"; "DRONE_TOKEN"; "MODE"].
Proof. by vm_compute. Qed.

Example missing_keys_message :
  Agent.validate_config
    (delete "MODE" (delete "DRONEX_URL" Samples.config_ok))
  = Agent.ConfigError "Missing config keys: DRONEX_URL, MODE".
Proof. by vm_compute. Qed.

Example wrong_type_interval :
  Agent.validate_config
    (<["TELEMETRY_INTERVAL" := Agent.VNone]> Samples.config_ok)
  = Agent.OtherError Py.TypeError
  /\ Agent.validate_config
       (<["TELEMETRY_INTERVAL" := Agent.VStr "fast"]> Samples.config_ok)
     = Agent.OtherError Py.ValueError
  /\ Agent.validate_config
       (<["TELEMETRY_INTERVAL" := Agent.VStr "0"]> Samples.config_ok)
     = Agent.ConfigError "TELEMETRY_INTERVAL must be > 0".
Proof. repeat split; by vm_compute. Qed.

End PyFacts.

(** ** Properties of video_stream.py *)

Module VideoStreamFacts.

Import VideoStream.

Section Producer.

Context {cv : OpenCV}.

Implicit Types (w : World) (c : Cycle) (cs : list Cycle) (fs : FrameSource).

(** *** The clock *)

(** With a rate other than zero and a clock that takes the length, the
    sleep is made and the pass goes on. *)
Lemma sleep_returns c w :
  PrimFloat.eqb (simulation_fps (self w)) 0 = false ->
  time_sleep c (1 / simulation_fps (self w))%float = None ->
  sleep_cycle c w
  = Next (emit (EvSleep (1 / simulation_fps (self w))%float) w).
Proof. intros Hz Hnap. unfold sleep_cycle. by rewrite Hz, Hnap. Qed.

(** Sleeping touches neither the frame source nor the device, and logs at
    most the sleep. *)
Lemma sleep_cycle_frame c w :
  self (step_world (sleep_cycle c w)) = self w
  /\ cap (step_world (sleep_cycle c w)) = cap w
  /\ exists evs, log (step_world (sleep_cycle c w)) = log w ++ evs
       /\ (evs = [] \/ exists d, evs = [EvSleep d]).
Proof.
  unfold sleep_cycle.
  destruct (PrimFloat.eqb _ 0); [|destruct (time_sleep c _)]; simpl;
    (split; [done|split; [done|]]).
  - exists []. rewrite app_nil_r. auto.
  - exists []. rewrite app_nil_r. auto.
  - eexists [_]. eauto.
Qed.

(** What the statements after the acquisition do to the frame source: the
    slot takes the encoder's buffer when there is one; nothing else moves. *)
Lemma encode_publish_sleep_frame c frame w :
  let w' := step_world (encode_publish_sleep c frame w) in
  self w' = match encoded c frame with
            | Some b => _set_latest b (self w)
            | None => self w
            end
  /\ cap w' = cap w
  /\ exists tail,
       log w' = log w ++ EvEncode frame (encoded c frame)
                  :: match encoded c frame with
                     | Some b => [EvPublish b]
                     | None => []
                     end ++ tail
       /\ (tail = [] \/ exists d, tail = [EvSleep d]).
Proof.
  unfold encode_publish_sleep, encoded.
  destruct (imencode c frame) as [e|r]; cbn zeta.
  { simpl. repeat split. exists []. by split; [|left]. }
  set (w1 := match r with Some _ => _ | None => _ end).
  destruct (sleep_cycle_frame c w1) as (Hs & Hc & tail & Hl & Ht).
  rewrite Hs, Hc, Hl. subst w1.
  destruct r as [b|]; simpl;
    (repeat split; [exists tail; split; [by rewrite <- !app_assoc | done]]).
Qed.

(** *** Simulation mode is a latch *)

(** A pass made in simulation mode: the mode stays, the device is not
    read, one frame comes from the generator and only that frame is
    encoded. *)
Lemma synthetic_pass c w :
  _simulation_mode (self w) = true ->
  let w' := step_world (loop_body c w) in
  _simulation_mode (self w') = true
  /\ _stop_event (self w') = _stop_event (self w)
  /\ cap w' = cap w
  /\ exists evs, log w' = log w ++ evs /\ Forall synthetic_only evs
       /\ count_synth evs = 1%nat /\ count_hw_reads evs = 0%nat.
Proof.
  intros Hsim. unfold loop_body. rewrite Hsim. cbn zeta.
  destruct (encode_publish_sleep_frame c _simulation_frame
              (emit (EvSynth _simulation_frame) w))
    as (Hs & Hc & tail & Hl & Ht).
  cbn zeta in *. rewrite Hs, Hc, Hl. simpl.
  split; [by destruct (encoded _ _)|].
  split; [by destruct (encoded _ _)|]. split; [done|].
  eexists (_ :: _ :: _). rewrite <- app_assoc. simpl. split; [done|].
  destruct (encoded c _simulation_frame), Ht as [->|[d ->]]; simpl;
    (split; [by repeat constructor | done]).
Qed.

(** Noticing a call of [stop()] changes the stop event only. *)
Lemma stop_seen_frame c w :
  let w0 := if stop_called c then with_self stop w else w in
  _simulation_mode (self w0) = _simulation_mode (self w)
  /\ _latest_jpeg (self w0) = _latest_jpeg (self w)
  /\ camera_index (self w0) = camera_index (self w)
  /\ simulation_fps (self w0) = simulation_fps (self w)
  /\ cap w0 = cap w /\ log w0 = log w.
Proof. by destruct (stop_called c). Qed.

(** The latch over any number of passes. *)
Lemma synthetic_run cs : forall w,
  _simulation_mode (self w) = true ->
  let o := capture_while cs w in
  _simulation_mode (self (world_of o)) = true
  /\ cap (world_of o) = cap w
  /\ exists evs, log (world_of o) = log w ++ evs
       /\ Forall synthetic_only evs
       /\ count_hw_reads evs = 0%nat
       /\ (forall w', o = Running w' -> count_synth evs = length cs).
Proof.
  induction cs as [|c cs IH]; intros w Hsim; simpl.
  - repeat split; [done|]. exists []. by rewrite app_nil_r.
  - destruct (stop_seen_frame c w) as (Hm & _ & _ & _ & Hc & Hl).
    set (w0 := if stop_called c then with_self stop w else w) in *.
    destruct (_stop_event (self w0)); simpl.
    { rewrite Hm, Hc, Hl. repeat split; [done|]. exists [].
      rewrite app_nil_r. by repeat split. }
    assert (Hsim0 : _simulation_mode (self w0) = true) by congruence.
    destruct (synthetic_pass c w0 Hsim0) as (Hm1 & _ & Hc1 & evs & Hl1 & Hf1 & Hn1 & Hr1).
    destruct (loop_body c w0) as [w1|e w1]; simpl in *.
    + destruct (IH w1 Hm1) as (Hm2 & Hc2 & evs2 & Hl2 & Hf2 & Hr2 & Hn2).
      split; [done|]. split; [congruence|].
      exists (evs ++ evs2). rewrite Hl2, Hl1, Hl, app_assoc.
      split; [done|]. split; [by apply Forall_app|].
      assert (Hadd : forall a b, count_hw_reads (a ++ b)
                = (count_hw_reads a + count_hw_reads b)%nat).
      { clear. induction a as [|[] a IHa]; intros l2; simpl; by rewrite ?IHa. }
      assert (Hadd' : forall a b, count_synth (a ++ b)
                = (count_synth a + count_synth b)%nat).
      { clear. induction a as [|[] a IHa]; intros l2; simpl; by rewrite ?IHa. }
      split; [rewrite Hadd; lia|].
      intros w' Hw'. rewrite Hadd', Hn1, (Hn2 w' Hw'). done.
    + split; [done|]. split; [congruence|].
      exists evs. rewrite Hl1, Hl. by repeat split.
Qed.

(** The loop over two batches of passes is the loop over the first, then
    over the second if it is still running. *)
Lemma capture_while_app pre post : forall w,
  capture_while (pre ++ post) w
  = match capture_while pre w with
    | Running w1 => capture_while post w1
    | o => o
    end.
Proof.
  induction pre as [|c pre IH]; intros w; simpl; [done|].
  destruct (_stop_event _); [done|].
  by destruct (loop_body c _).
Qed.

(** Either way in, the loop is running and the mode is set. *)
Lemma entered_synthetic_running hw fs pre w1 :
  entered_synthetic hw fs pre w1 ->
  capture_while pre (open_device hw fs) = Running w1
  /\ _simulation_mode (self w1) = true.
Proof.
  intros [Hopen | pre' c w w' Hrun Hmode Hstop Hev Hread Hbody].
  - split; [done|]. unfold open_device, cv2_VideoCapture. simpl.
    by rewrite Hopen.
  - split.
    + rewrite capture_while_app, Hrun. simpl.
      by rewrite Hstop, Hev, Hbody.
    + revert Hbody. unfold loop_body. rewrite Hmode, Hread.
      by intros [= <-].
Qed.

(** In simulation mode nothing is done after the [while]. *)
Lemma close_device_synthetic w :
  _simulation_mode (self w) = true -> close_device w = w.
Proof. intros H. unfold close_device. by rewrite H. Qed.

(** C1. Once the loop is in simulation mode, because the device did not
    open or because a [cap.read()] failed, it stays there: whatever passes
    [post] follow, and whatever the device would answer in them, the mode
    is still set at the end, [cap.read()] is not called again, every frame
    made or encoded is the generated one, and each pass that completes
    takes exactly one frame from the generator. *)
Theorem simulation_mode_is_one_way hw fs pre w1 post :
  entered_synthetic hw fs pre w1 ->
  let o := _capture_loop hw (pre ++ post) fs in
  _simulation_mode (self (world_of o)) = true
  /\ reads (cap (world_of o)) = reads (cap w1)
  /\ exists evs, log (world_of o) = log w1 ++ evs
       /\ Forall synthetic_only evs
       /\ count_hw_reads evs = 0%nat
       /\ (forall w', o = Running w' -> count_synth evs = length post).
Proof.
  intros Hin. destruct (entered_synthetic_running _ _ _ _ Hin) as [Hrun Hsim].
  destruct (synthetic_run post w1 Hsim) as (Hm & Hc & evs & Hl & Hf & Hr & Hn).
  unfold _capture_loop. rewrite capture_while_app, Hrun.
  destruct (capture_while post w1) as [w2|w2|e w2]; simpl in *.
  - rewrite Hc. split; [done|]. split; [done|]. exists evs.
    split; [done|]. split; [done|]. split; [done|].
    intros w' [= <-]. by apply (Hn w2).
  - rewrite close_device_synthetic by done. rewrite Hc.
    split; [done|]. split; [done|]. exists evs. by repeat split.
  - rewrite Hc. split; [done|]. split; [done|]. exists evs. by repeat split.
Qed.

(** *** The device handle *)

(** A pass never releases the device, never changes the configured index
    and rate, and never empties the slot. *)
Lemma loop_body_frame c w :
  let w' := step_world (loop_body c w) in
  releases (cap w') = releases (cap w)
  /\ isOpened (cap w') = isOpened (cap w)
  /\ camera_index (self w') = camera_index (self w)
  /\ simulation_fps (self w') = simulation_fps (self w)
  /\ (is_Some (_latest_jpeg (self w)) -> is_Some (_latest_jpeg (self w'))).
Proof.
  unfold loop_body.
  destruct (_simulation_mode (self w)); [|destruct (cap_read c) as [frame|]];
    cbn zeta;
    try (match goal with
         | |- context [encode_publish_sleep ?c ?f ?w0] =>
             destruct (encode_publish_sleep_frame c f w0) as (Hs & Hc & _);
             cbn zeta in Hs, Hc; rewrite Hs, Hc;
             destruct (encoded c f); simpl; by eauto 10
         end).
  simpl. by eauto 10.
Qed.

Lemma capture_while_frame cs : forall w,
  let w' := world_of (capture_while cs w) in
  releases (cap w') = releases (cap w)
  /\ isOpened (cap w') = isOpened (cap w)
  /\ camera_index (self w') = camera_index (self w)
  /\ simulation_fps (self w') = simulation_fps (self w)
  /\ (is_Some (_latest_jpeg (self w)) -> is_Some (_latest_jpeg (self w'))).
Proof.
  induction cs as [|c cs IH]; intros w; simpl; [by eauto 10|].
  destruct (stop_seen_frame c w) as (_ & Hj & Hi & Hf & Hc & _).
  set (w0 := if stop_called c then with_self stop w else w) in *.
  destruct (_stop_event (self w0)); simpl.
  { rewrite Hc, Hi, Hf, Hj. by eauto 10. }
  destruct (loop_body_frame c w0) as (H1 & H2 & H3 & H4 & H5).
  destruct (loop_body c w0) as [w1|e w1]; simpl in *.
  - destruct (IH w1) as (G1 & G2 & G3 & G4 & G5).
    rewrite G1, G2, G3, G4, H1, H2, H3, H4, Hc, Hi, Hf.
    repeat split. intros Hsome. apply G5, H5. by rewrite Hj.
  - rewrite H1, H2, H3, H4, Hc, Hi, Hf.
    repeat split. intros Hsome. apply H5. by rewrite Hj.
Qed.

(** How often [release()] has been called when the thread is where [o]
    says: once after a stop in hardware mode, never otherwise. *)
Lemma release_count hw cs fs :
  let o := _capture_loop hw cs fs in
  releases (cap (world_of o))
  = match o with
    | Stopped w => if _simulation_mode (self w) then 0%nat else 1%nat
    | _ => 0%nat
    end.
Proof.
  unfold _capture_loop.
  destruct (capture_while_frame cs (open_device hw fs)) as (Hr & _).
  assert (H0 : releases (cap (open_device hw fs)) = 0%nat).
  { unfold open_device. by destruct (negb _). }
  destruct (capture_while cs (open_device hw fs)) as [w|w|e w]; simpl in *;
    [congruence| |congruence].
  unfold close_device.
  destruct (_simulation_mode (self w)) eqn:E; simpl; rewrite ?E; simpl;
    congruence.
Qed.

(** An opened device whose session went to simulation mode is still open,
    and was never released, when the thread returns. *)
Lemma no_release_after_entering_synthetic hw fs pre w1 post w :
  hw (camera_index fs) = true ->
  entered_synthetic hw fs pre w1 ->
  _capture_loop hw (pre ++ post) fs = Stopped w ->
  isOpened (cap w) = true /\ releases (cap w) = 0%nat.
Proof.
  intros Hopen Hin Hstop.
  destruct (entered_synthetic_running _ _ _ _ Hin) as [Hrun Hsim].
  destruct (synthetic_run post w1 Hsim) as (Hmode & _).
  pose proof (release_count hw (pre ++ post) fs) as Hcount.
  destruct (capture_while_frame (pre ++ post) (open_device hw fs))
    as (_ & Hstill & _).
  revert Hstop Hcount. unfold _capture_loop in *.
  rewrite capture_while_app, Hrun in *.
  destruct (capture_while post w1) as [w2|w2|e w2]; simpl in *; [done| |done].
  rewrite close_device_synthetic by done. intros [= <-] Hcount.
  rewrite Hmode in Hcount. split; [|done].
  rewrite Hstill. unfold open_device, cv2_VideoCapture. simpl.
  by rewrite Hopen.
Qed.

(** *** The slot and the passes *)

Lemma published_app (l1 l2 : list Event) :
  published (l1 ++ l2) = published l1 ++ published l2.
Proof. induction l1 as [|[] l1 IH]; simpl; by rewrite ?IH. Qed.

(** The slot after a pass is the last buffer the pass published, or what it
    was. *)
Lemma loop_body_slot c w :
  let w' := step_world (loop_body c w) in
  exists evs, log w' = log w ++ evs
    /\ _latest_jpeg (self w')
       = from_option Some (_latest_jpeg (self w)) (last (published evs)).
Proof.
  unfold loop_body.
  destruct (_simulation_mode (self w)); [|destruct (cap_read c) as [frame|]];
    cbn zeta;
    try (match goal with
         | |- context [encode_publish_sleep ?c ?f ?w0] =>
             destruct (encode_publish_sleep_frame c f w0) as (Hs & _ & tl & Hl & Ht);
             cbn zeta in Hs, Hl; rewrite Hs, Hl; simpl;
             eexists (_ :: _); rewrite <- app_assoc; simpl; split; [done|];
             destruct (encoded c f), Ht as [->|[d ->]]; by simpl
         end).
  simpl. by eexists [_].
Qed.

Lemma capture_while_slot cs : forall w,
  let w' := world_of (capture_while cs w) in
  exists evs, log w' = log w ++ evs
    /\ _latest_jpeg (self w')
       = from_option Some (_latest_jpeg (self w)) (last (published evs)).
Proof.
  induction cs as [|c cs IH]; intros w; simpl.
  { exists []. by rewrite app_nil_r. }
  destruct (stop_seen_frame c w) as (_ & Hj & _ & _ & _ & Hl).
  set (w0 := if stop_called c then with_self stop w else w) in *.
  destruct (_stop_event (self w0)); simpl.
  { exists []. by rewrite app_nil_r, Hl, Hj. }
  destruct (loop_body_slot c w0) as (evs & Hl1 & Hs1).
  destruct (loop_body c w0) as [w1|e w1]; simpl in *.
  - destruct (IH w1) as (evs2 & Hl2 & Hs2).
    exists (evs ++ evs2). rewrite Hl2, Hl1, Hl, app_assoc. split; [done|].
    rewrite Hs2, Hs1, Hj, published_app.
    destruct (published evs2) as [|b l] using rev_ind.
    + by rewrite app_nil_r.
    + by rewrite app_assoc, !last_snoc.
  - exists evs. by rewrite Hl1, Hl, Hs1, Hj.
Qed.

(** C3. After [N] publishes, [N] at least one, a read of the slot gives the
    [N]th buffer: for [_set_latest] called [N] times in a row, and for the
    [N] buffers a run of the capture loop has published so far. *)
Theorem published_order_consistency (N : nat) :
  (0 < N)%nat ->
  (forall fs frames,
     length frames = N ->
     fst (get_latest_jpeg (publish_all frames fs)) = frames !! (N - 1)%nat)
  /\ (forall hw cs fs,
        let w := world_of (_capture_loop hw cs fs) in
        length (published (log w)) = N ->
        fst (get_latest_jpeg (self w)) = published (log w) !! (N - 1)%nat).
Proof.
  intros HN. split.
  - intros fs frames <-. simpl.
    destruct frames as [|b frames] using rev_ind; [simpl in HN; lia|].
    unfold publish_all. rewrite foldl_snoc, length_app. simpl.
    rewrite lookup_app_r by lia.
    by replace (length frames + 1 - 1 - length frames)%nat with 0%nat by lia.
  - intros hw cs fs w Hlen. simpl.
    assert (Hslot : _latest_jpeg (self w)
              = from_option Some (_latest_jpeg fs) (last (published (log w)))
            \/ published (log w) = []).
    { subst w. unfold _capture_loop.
      destruct (capture_while_slot cs (open_device hw fs)) as (evs & Hl & Hs).
      assert (H0 : log (open_device hw fs) = []
                /\ _latest_jpeg (self (open_device hw fs)) = _latest_jpeg fs).
      { unfold open_device. by destruct (negb _). }
      destruct H0 as [H0 H1]. rewrite H0, H1 in *. simpl in Hl.
      destruct (capture_while cs (open_device hw fs)) as [w|w|e w];
        simpl in *; [left; by rewrite Hs, Hl| |left; by rewrite Hs, Hl].
      unfold close_device. destruct (_simulation_mode (self w)); simpl.
      - left. by rewrite Hs, Hl.
      - left. rewrite Hs, Hl, published_app. simpl. by rewrite app_nil_r. }
    destruct Hslot as [Hslot|Hnil]; [|rewrite Hnil in Hlen; simpl in Hlen; lia].
    rewrite Hslot, last_lookup, Hlen.
    replace (Nat.pred N) with (N - 1)%nat by lia.
    destruct (published (log w) !! (N - 1)%nat) eqn:Hlk; [done|].
    apply lookup_ge_None in Hlk. lia.
Qed.

(** *** A failed encode *)

(** A pass that acquires a frame, with an encoder that returns, a rate
    other than zero and a clock that takes the length: what it leaves. *)
Lemma loop_body_acquired c w frame r :
  PrimFloat.eqb (simulation_fps (self w)) 0 = false ->
  time_sleep c (1 / simulation_fps (self w))%float = None ->
  acquire c w = Some frame ->
  imencode c frame = inr r ->
  let w0 := if _simulation_mode (self w) then w else with_cap cap_count_read w in
  let w1 := emit (EvEncode frame r) (emit (acquired_event w frame) w0) in
  loop_body c w
  = Next (emit (EvSleep (1 / simulation_fps (self w))%float)
            match r with
            | Some b => emit (EvPublish b) (with_self (_set_latest b) w1)
            | None => w1
            end).
Proof.
  intros Hrate Hnap Hacq Henc. unfold acquire, loop_body, acquired_event in *.
  destruct (_simulation_mode (self w)).
  - injection Hacq as <-. cbn zeta. unfold encode_publish_sleep.
    rewrite Henc. cbn zeta. rewrite sleep_returns; by destruct r.
  - rewrite Hacq. cbn zeta. unfold encode_publish_sleep.
    rewrite Henc. cbn zeta. rewrite sleep_returns; by destruct r.
Qed.

(** A pass that acquires a frame and whose encoder returns a buffer: the
    buffer is published and in the slot, whatever the sleep does next. *)
Lemma loop_body_publishes c w frame b :
  acquire c w = Some frame ->
  imencode c frame = inr (Some b) ->
  let w' := step_world (loop_body c w) in
  _latest_jpeg (self w') = Some b
  /\ exists tail,
       log w' = log w ++ [acquired_event w frame; EvEncode frame (Some b);
                          EvPublish b] ++ tail
       /\ (tail = []
           \/ tail = [EvSleep (1 / simulation_fps (self w))%float]).
Proof.
  intros Hacq Henc. unfold acquire, loop_body, acquired_event in *.
  destruct (_simulation_mode (self w)).
  - injection Hacq as <-. cbn zeta. unfold encode_publish_sleep.
    rewrite Henc. unfold sleep_cycle. simpl.
    destruct (PrimFloat.eqb _ _); [|destruct (time_sleep c _)]; simpl;
      (split; [done|]); rewrite <- !app_assoc; simpl.
    + exists []. by split; [|left].
    + exists []. by split; [|left].
    + eexists [_]. by split; [|right].
  - rewrite Hacq. cbn zeta. unfold encode_publish_sleep.
    rewrite Henc. unfold sleep_cycle. simpl.
    destruct (PrimFloat.eqb _ _); [|destruct (time_sleep c _)]; simpl;
      (split; [done|]); rewrite <- !app_assoc; simpl.
    + exists []. by split; [|left].
    + exists []. by split; [|left].
    + eexists [_]. by split; [|right].
Qed.

(** C4, as amended.  When [cv2.imencode] returns a false [ok] (it does not
    raise), the rate is not zero and [time.sleep] takes the length, and no
    stop is requested: the pass publishes nothing (the frame source is as
    it was), makes that one encode attempt and sleeps; the loop goes on to
    the next pass, which acquires its own frame, and when that encode
    returns a buffer it is published and a read of the slot returns it,
    whatever happens in that pass afterwards; if its sleep returns too,
    the loop goes on from there. *)
Theorem encode_failure_skips_one_pass c1 c2 w f1 f2 b :
  PrimFloat.eqb (simulation_fps (self w)) 0 = false ->
  time_sleep c1 (1 / simulation_fps (self w))%float = None ->
  _stop_event (self w) = false ->
  stop_called c1 = false ->
  stop_called c2 = false ->
  acquire c1 w = Some f1 ->
  imencode c1 f1 = inr None ->
  acquire c2 w = Some f2 ->
  imencode c2 f2 = inr (Some b) ->
  let nap := EvSleep (1 / simulation_fps (self w))%float in
  exists w1,
    loop_body c1 w = Next w1
    /\ self w1 = self w
    /\ log w1 = log w ++ [acquired_event w f1; EvEncode f1 None; nap]
    /\ (let w2 := world_of (capture_while [c1; c2] w) in
        w2 = step_world (loop_body c2 w1)
        /\ (exists tail,
              log w2 = log w1 ++ [acquired_event w f2; EvEncode f2 (Some b);
                                  EvPublish b] ++ tail
              /\ (tail = [] \/ tail = [nap]))
        /\ fst (get_latest_jpeg (self w2)) = Some b)
    /\ (time_sleep c2 (1 / simulation_fps (self w))%float = None ->
        exists w2,
          loop_body c2 w1 = Next w2
          /\ forall rest,
               capture_while (c1 :: c2 :: rest) w = capture_while rest w2).
Proof.
  intros Hrate Hnap Hrun Hs1 Hs2 Ha1 He1 Ha2 He2 nap.
  pose proof (loop_body_acquired c1 w f1 None Hrate Hnap Ha1 He1) as H1.
  cbv beta iota zeta in H1.
  set (w1 := emit _ (emit (EvEncode f1 None) _)) in H1.
  assert (Hself : self w1 = self w).
  { subst w1. by destruct (_simulation_mode (self w)). }
  assert (Ha2' : acquire c2 w1 = Some f2).
  { unfold acquire in *. by rewrite Hself. }
  assert (Hlog1 : log w1 = log w ++ [acquired_event w f1; EvEncode f1 None; nap]).
  { subst w1. simpl. destruct (_simulation_mode (self w)); simpl;
      by rewrite <- !app_assoc. }
  assert (Hevent : acquired_event w1 f2 = acquired_event w f2).
  { unfold acquired_event. by rewrite Hself. }
  exists w1. split; [done|]. split; [done|]. split; [done|]. split.
  - cbn zeta.
    assert (Hgo : world_of (capture_while [c1; c2] w)
                  = step_world (loop_body c2 w1)).
    { simpl. rewrite Hs1, Hrun, H1, Hs2, Hself, Hrun.
      by destruct (loop_body c2 w1). }
    rewrite Hgo. split; [done|].
    destruct (loop_body_publishes c2 w1 f2 b Ha2' He2) as (Hslot & tl & Hl & Ht).
    cbn zeta in Hslot, Hl. rewrite Hevent in Hl. rewrite Hself in Ht.
    split; [|done]. by exists tl.
  - intros Hnap2.
    assert (Hrate' : PrimFloat.eqb (simulation_fps (self w1)) 0 = false)
      by by rewrite Hself.
    assert (Hnap2' : time_sleep c2 (1 / simulation_fps (self w1))%float = None)
      by by rewrite Hself.
    pose proof (loop_body_acquired c2 w1 f2 (Some b) Hrate' Hnap2' Ha2' He2) as H2.
    cbv beta iota zeta in H2. eexists. split; [exact H2|].
    intros rest. simpl. rewrite Hs1, Hrun, H1, Hs2, Hself, Hrun.
    by rewrite H2.
Qed.

(** *** The slot over the life of the process *)

Lemma apply_op_frame w op :
  camera_index (self (apply_op w op)) = camera_index (self w)
  /\ simulation_fps (self (apply_op w op)) = simulation_fps (self w)
  /\ (is_Some (_latest_jpeg (self w)) ->
      is_Some (_latest_jpeg (self (apply_op w op)))).
Proof.
  destruct op as [b| | |hw|c|]; simpl; try by eauto.
  - unfold open_device. by destruct (negb _).
  - destruct (loop_body_frame c w) as (_ & _ & ? & ? & ?). by eauto.
  - unfold close_device. by destruct (negb _).
Qed.

Lemma run_ops_frame ops : forall w,
  camera_index (self (run_ops ops w)) = camera_index (self w)
  /\ simulation_fps (self (run_ops ops w)) = simulation_fps (self w)
  /\ (is_Some (_latest_jpeg (self w)) ->
      is_Some (_latest_jpeg (self (run_ops ops w)))).
Proof.
  unfold run_ops. induction ops as [|op ops IH]; intros w; simpl; [done|].
  destruct (apply_op_frame w op) as (H1 & H2 & H3).
  destruct (IH (apply_op w op)) as (G1 & G2 & G3).
  rewrite G1, G2, H1, H2. by eauto.
Qed.

(** C9. The slot is empty in a new frame source; no operation of the
    program empties a slot that holds a frame; so after any publish every
    read returns a frame, whatever operations come before and after. *)
Theorem slot_never_emptied :
  (forall index rate, fst (get_latest_jpeg (__init__ index rate)) = None)
  /\ (forall ops w,
        is_Some (_latest_jpeg (self w)) ->
        is_Some (fst (get_latest_jpeg (self (run_ops ops w)))))
  /\ (forall before b after w,
        is_Some
          (fst (get_latest_jpeg
                  (self (run_ops (before ++ OpSetLatest b :: after) w))))).
Proof.
  split; [done|]. split.
  - intros ops w Hsome. simpl. by apply run_ops_frame.
  - intros before b after w. simpl. unfold run_ops.
    rewrite foldl_app. simpl. apply (run_ops_frame after). simpl. by eauto.
Qed.

(** *** Start-up *)

(** C8. Each start-up value is the option's when it is given (and its
    text converts) and its default when it is not: the host defaults to
    [0.0.0.0]; the port to 8080 when [MJPEG_PORT] is unset and to the
    integer [MJPEG_PORT] spells when it is set; the device index to 0; the
    rate to 10.0.  [main] then gets to [app.run] with that host and port,
    and the frame source it has made holds that index and rate.  No
    operation changes the index or the rate of a frame source
    afterwards. *)
Theorem startup_defaults (float_of_str : string -> option float)
    (environ : string -> option string) (argv : Argv) :
  (forall port_default port camera fps,
     (environ "MJPEG_PORT" = None /\ port_default = 8080
      \/ exists s, environ "MJPEG_PORT" = Some s
                   /\ Py.int_of_str s = Some port_default) ->
     (opt_port argv = None /\ port = port_default
      \/ exists s, opt_port argv = Some s /\ Py.int_of_str s = Some port) ->
     (opt_camera argv = None /\ camera = 0
      \/ exists s, opt_camera argv = Some s /\ Py.int_of_str s = Some camera) ->
     (opt_fps argv = None /\ fps = 10%float
      \/ exists s, opt_fps argv = Some s /\ float_of_str s = Some fps) ->
     exists fs,
       main float_of_str environ argv
       = inr {| frame_source := Some fs;
                bind_host := default "0.0.0.0" (opt_host argv);
                bind_port := port;
                threaded := true |}
       /\ camera_index fs = camera
       /\ simulation_fps fs = fps
       /\ fs = __init__ camera fps)
  /\ (forall ops w,
        camera_index (self (run_ops ops w)) = camera_index (self w)
        /\ simulation_fps (self (run_ops ops w)) = simulation_fps (self w))
  /\ (forall hw cs fs,
        camera_index (self (world_of (_capture_loop hw cs fs))) = camera_index fs
        /\ simulation_fps (self (world_of (_capture_loop hw cs fs)))
           = simulation_fps fs).
Proof.
  split; [|split].
  - intros port_default port camera fps Hdefault Hport Hcamera Hfps.
    assert (Hint : Py.int_of_str (os_getenv environ "MJPEG_PORT" "8080")
                   = Some port_default).
    { unfold os_getenv.
      destruct Hdefault as [[-> ->]|(s & -> & Hs)]; [by vm_compute|done]. }
    assert (Hp : option_value Py.int_of_str port_default (opt_port argv)
                 = Some port).
    { by destruct Hport as [[-> ->]|(s & -> & Hs)]. }
    assert (Hc : option_value Py.int_of_str 0 (opt_camera argv) = Some camera).
    { by destruct Hcamera as [[-> ->]|(s & -> & Hs)]. }
    assert (Hf : option_value float_of_str 10%float (opt_fps argv) = Some fps).
    { by destruct Hfps as [[-> ->]|(s & -> & Hs)]. }
    unfold main, parse_args. rewrite Hint, Hp, Hc, Hf. simpl.
    by eexists.
  - intros ops w. destruct (run_ops_frame ops w) as (? & ? & _). done.
  - intros hw cs fs. unfold _capture_loop.
    destruct (capture_while_frame cs (open_device hw fs)) as (_ & _ & Hi & Hf & _).
    assert (H0 : camera_index (self (open_device hw fs)) = camera_index fs
              /\ simulation_fps (self (open_device hw fs)) = simulation_fps fs).
    { unfold open_device. by destruct (negb _). }
    destruct H0 as [H0 H1].
    destruct (capture_while cs (open_device hw fs)) as [w|w|e w]; simpl in *;
      [by rewrite Hi, Hf| |by rewrite Hi, Hf].
    unfold close_device. destruct (negb _); simpl; by rewrite Hi, Hf.
Qed.

End Producer.

(** C2, evaluated where it fails.  The device opens, the first [cap.read()]
    fails, then [stop()] is called: the thread returns with the device
    still open and [release()] never called.  Without the failed read the
    same stop releases it once. *)
Theorem read_failure_leaves_device_open :
  (exists w,
     _capture_loop Samples.camera_present
       [Samples.read_fails; Samples.stop_pass] Samples.fresh = Stopped w
     /\ isOpened (cap w) = true
     /\ releases (cap w) = 0%nat
     /\ log w = [EvHwRead None])
  /\ (exists w,
        _capture_loop Samples.camera_present
          [Samples.good_pass; Samples.stop_pass] Samples.fresh = Stopped w
        /\ isOpened (cap w) = false
        /\ releases (cap w) = 1%nat).
Proof. split; eexists; (split; [reflexivity|]); by vm_compute. Qed.

(** C4 as stated fails in two ways.  At [--fps 0] the pass whose encode
    reports a false [ok] goes on to [1 / self.simulation_fps], which raises
    [ZeroDivisionError]: the thread ends there.  And when the encoder
    fails by raising [cv2.error], at any rate, the exception is not
    caught: the thread ends in the encode.  Either way the next pass, whose
    encode would work, is never made: nothing is published and the slot
    stays empty. *)
Lemma failed_encode_can_end_the_thread :
  (acquire Samples.encode_fails
     (open_device Samples.camera_present (__init__ 0 0%float)) = Some 7%nat
   /\ imencode Samples.encode_fails 7%nat = inr None
   /\ imencode Samples.good_pass 7%nat = inr (Some Samples.jpeg_a)
   /\ exists w,
        _capture_loop Samples.camera_present
          [Samples.encode_fails; Samples.good_pass] (__init__ 0 0%float)
        = Crashed Py.ZeroDivisionError w
        /\ log w = [EvHwRead (cv := Samples.toy_cv) (Some 7%nat);
                    EvEncode (cv := Samples.toy_cv) 7%nat None]
        /\ fst (get_latest_jpeg (self w)) = None)
  /\ (imencode Samples.encode_raises 7%nat = inl Py.Cv2Error
      /\ exists w,
           _capture_loop Samples.camera_present
             [Samples.encode_raises; Samples.good_pass] Samples.fresh
           = Crashed Py.Cv2Error w
           /\ log w = [EvHwRead (cv := Samples.toy_cv) (Some 7%nat);
                    EvEncode (cv := Samples.toy_cv) 7%nat None]
           /\ fst (get_latest_jpeg (self w)) = None).
Proof.
  split.
  - split; [reflexivity|]. split; [reflexivity|]. split; [reflexivity|].
    eexists. split; [reflexivity|]. by vm_compute.
  - split; [reflexivity|]. eexists. split; [reflexivity|]. by vm_compute.
Qed.

Lemma simulation_mode_is_one_way_witness :
  exists w1,
    entered_synthetic (cv := Samples.toy_cv) Samples.camera_present Samples.fresh
      ([Samples.good_pass] ++ [Samples.read_fails]) w1
    /\ _simulation_mode
         (self (world_of (_capture_loop Samples.camera_present
            (([Samples.good_pass] ++ [Samples.read_fails])
               ++ [Samples.good_pass; Samples.good_pass]) Samples.fresh))) = true.
Proof.
  eexists. split.
  - eapply by_read_failure; reflexivity.
  - eapply simulation_mode_is_one_way.
    eapply by_read_failure; reflexivity.
Defined.

Lemma published_order_consistency_witness :
  (0 < 2)%nat
  /\ fst (get_latest_jpeg
            (publish_all [Samples.jpeg_a; Samples.jpeg_b] Samples.fresh))
     = Some Samples.jpeg_b.
Proof.
  split; [lia|].
  exact (proj1 (published_order_consistency (cv := Samples.toy_cv) 2
                  ltac:(lia)) Samples.fresh [Samples.jpeg_a; Samples.jpeg_b]
           eq_refl).
Defined.

(** *** The stream multiplexer *)

(** A [next()] that yields: the pass that yields is the first to find a
    frame in the slot, and the part is made of that frame. *)
Lemma mjpeg_stream_yields views : forall sleeps part,
  mjpeg_stream views = (sleeps, Some part) ->
  exists fs jpeg,
    views !! length sleeps = Some (Some fs)
    /\ fst (get_latest_jpeg fs) = Some jpeg
    /\ part = part_head ++ jpeg ++ part_tail
    /\ forallb slot_empty (take (length sleeps) views) = true.
Proof.
  induction views as [|v views IH]; intros sleeps part; simpl; [done|].
  destruct v as [fs|]; simpl.
  - destruct (_latest_jpeg fs) as [jpeg|] eqn:Hslot.
    + intros [= <- <-]. by exists fs, jpeg.
    + destruct (mjpeg_stream views) as [ds r] eqn:Hrest.
      intros [= <- ->]. destruct (IH _ _ eq_refl) as (fs' & jpeg & ? & ? & ? & ?).
      exists fs', jpeg. simpl. by rewrite Hslot.
  - destruct (mjpeg_stream views) as [ds r] eqn:Hrest.
    intros [= <- ->]. destruct (IH _ _ eq_refl) as (fs' & jpeg & ? & ? & ? & ?).
    by exists fs', jpeg.
Qed.

(** C5. A pass yields a part only when the slot holds a frame; a pass that
    finds the global unset sleeps 0.1 s, one that reads an empty slot
    sleeps 0.05 s, and either goes round again; a [next()] started while
    there is nothing to send makes exactly those sleeps, one per pass and
    in order, and yields its first part at the first pass that finds a
    frame; nothing is raised on the way, and no part is yielded from an
    empty slot. *)
Theorem stream_waits_for_a_frame :
  (forall g part,
     mjpeg_stream_pass g = Yield part ->
     exists fs jpeg, g = Some fs /\ fst (get_latest_jpeg fs) = Some jpeg)
  /\ mjpeg_stream_pass None = Backoff (1 # 10)
  /\ (forall fs,
        fst (get_latest_jpeg fs) = None ->
        mjpeg_stream_pass (Some fs) = Backoff (5 # 100))
  /\ (forall waiting fs jpeg rest,
        forallb slot_empty waiting = true ->
        fst (get_latest_jpeg fs) = Some jpeg ->
        mjpeg_stream (waiting ++ Some fs :: rest)
        = (VideoStreamTrace.backoff_for <$> waiting,
           Some (part_head ++ jpeg ++ part_tail)))
  /\ (forall views sleeps part,
        mjpeg_stream views = (sleeps, Some part) ->
        exists fs,
          views !! length sleeps = Some (Some fs)
          /\ is_Some (fst (get_latest_jpeg fs))
          /\ forallb slot_empty (take (length sleeps) views) = true).
Proof.
  split; [|split; [done|split; [|split]]].
  - intros [fs|] part; simpl; [|done].
    destruct (_latest_jpeg fs) as [jpeg|] eqn:Hslot; [|done].
    intros _. by exists fs, jpeg.
  - intros fs. simpl. by intros ->.
  - intros waiting fs jpeg rest Hwait Hslot. simpl in Hslot.
    induction waiting as [|v waiting IH]; simpl in *.
    + by rewrite Hslot.
    + apply andb_prop in Hwait as [Hv Hwait].
      rewrite (IH Hwait).
      destruct v as [fs'|]; simpl in *; [|done].
      by destruct (_latest_jpeg fs').
  - intros views sleeps part Hrun.
    destruct (mjpeg_stream_yields _ _ _ Hrun) as (fs & jpeg & ? & Hslot & _ & ?).
    exists fs. rewrite Hslot. by eauto.
Qed.

Lemma stream_waits_for_a_frame_witness :
  forallb slot_empty [None; Some Samples.fresh] = true
  /\ fst (get_latest_jpeg (_set_latest Samples.jpeg_a Samples.fresh))
     = Some Samples.jpeg_a
  /\ mjpeg_stream ([None; Some Samples.fresh]
                     ++ Some (_set_latest Samples.jpeg_a Samples.fresh) :: [])
     = ([1 # 10; 5 # 100]%Q, Some (part_head ++ Samples.jpeg_a ++ part_tail)).
Proof.
  split; [reflexivity|]. split; [reflexivity|].
  exact (proj1 (proj2 (proj2 (proj2 stream_waits_for_a_frame)))
           [None; Some Samples.fresh]
           (_set_latest Samples.jpeg_a Samples.fresh) Samples.jpeg_a []
           eq_refl eq_refl).
Defined.

(** C6. Every part the response of [/stream.mjpg] yields is [--frame],
    CRLF, [Content-Type: image/jpeg], CRLF, CRLF, the buffer read from the
    slot, CRLF; the response is declared
    [multipart/x-mixed-replace; boundary=frame]; and that response is what
    is routed at [/stream.mjpg]. *)
Theorem stream_part_format :
  (forall views sleeps part,
     response stream views = (sleeps, Some part) ->
     exists fs jpeg,
       views !! length sleeps = Some (Some fs)
       /\ fst (get_latest_jpeg fs) = Some jpeg
       /\ part = multipart_section jpeg)
  /\ mimetype stream = "multipart/x-mixed-replace; boundary=frame"
  /\ url_map = [("/stream.mjpg", stream)].
Proof.
  split; [|done].
  intros views sleeps part Hrun.
  destruct (mjpeg_stream_yields _ _ _ Hrun) as (fs & jpeg & ? & ? & -> & _).
  by exists fs, jpeg.
Qed.

Lemma stream_part_format_witness :
  response stream [None; Some (_set_latest Samples.jpeg_a Samples.fresh)]
  = ([1 # 10]%Q, Some (part_head ++ Samples.jpeg_a ++ part_tail))
  /\ exists fs jpeg,
       [None; Some (_set_latest Samples.jpeg_a Samples.fresh)]
         !! length [1 # 10]%Q = Some (Some fs)
       /\ fst (get_latest_jpeg fs) = Some jpeg
       /\ part_head ++ Samples.jpeg_a ++ part_tail = multipart_section jpeg.
Proof.
  split; [reflexivity|].
  exact (proj1 stream_part_format
           [None; Some (_set_latest Samples.jpeg_a Samples.fresh)]
           [1 # 10]%Q _ eq_refl).
Defined.

(** C7. Two reads in a row, nothing published in between: both return the
    same bytes, and the frame source is after each read what it was before
    the first. *)
Theorem read_is_idempotent (fs : FrameSource) :
  let '(first, fs1) := get_latest_jpeg fs in
  let '(second, fs2) := get_latest_jpeg fs1 in
  first = second /\ fs1 = fs /\ fs2 = fs.
Proof. by simpl. Qed.

Lemma encode_failure_skips_one_pass_witness :
  exists w1,
    loop_body Samples.encode_fails
      (open_device (cv := Samples.toy_cv) Samples.camera_present Samples.fresh)
    = Next w1
    /\ fst (get_latest_jpeg
              (self (world_of
                 (capture_while [Samples.encode_fails; Samples.good_pass]
                    (open_device Samples.camera_present Samples.fresh)))))
       = Some Samples.jpeg_a.
Proof.
  destruct (encode_failure_skips_one_pass (cv := Samples.toy_cv)
              Samples.encode_fails Samples.good_pass
              (open_device Samples.camera_present Samples.fresh)
              7%nat 7%nat Samples.jpeg_a
              eq_refl eq_refl eq_refl eq_refl eq_refl eq_refl eq_refl eq_refl
              eq_refl)
    as (w1 & H1 & _ & _ & (_ & _ & H2) & _).
  exists w1. split; [exact H1 | exact H2].
Defined.

Lemma slot_never_emptied_witness :
  is_Some (_latest_jpeg (_set_latest Samples.jpeg_a Samples.fresh))
  /\ is_Some
       (fst (get_latest_jpeg
          (self (run_ops (cv := Samples.toy_cv)
                   [OpStop; OpPass Samples.encode_fails; OpGetLatest; OpClose]
                   {| self := _set_latest Samples.jpeg_a Samples.fresh;
                      cap := cv2_VideoCapture Samples.camera_present 0;
                      log := [] |})))).
Proof.
  split; [by eexists|].
  apply (proj1 (proj2 (slot_never_emptied (cv := Samples.toy_cv)))).
  by eexists.
Defined.

Lemma startup_defaults_witness :
  exists fs,
    main (fun _ => None)
      (fun name => if String.eqb name "MJPEG_PORT" then Some " 9_000 " else None)
      {| opt_host := None; opt_port := None; opt_camera := Some "2";
         opt_fps := None |}
    = inr {| frame_source := Some fs; bind_host := "0.0.0.0"; bind_port := 9000;
             threaded := true |}
    /\ camera_index fs = 2
    /\ simulation_fps fs = 10%float.
Proof.
  destruct (proj1 (startup_defaults (cv := Samples.toy_cv) (fun _ => None)
                     (fun name => if String.eqb name "MJPEG_PORT"
                                  then Some " 9_000 " else None)
                     {| opt_host := None; opt_port := None;
                        opt_camera := Some "2"; opt_fps := None |})
              9000 9000 2 10%float
              (or_intror (ex_intro _ " 9_000 " (conj eq_refl eq_refl)))
              (or_introl (conj eq_refl eq_refl))
              (or_intror (ex_intro _ "2" (conj eq_refl eq_refl)))
              (or_introl (conj eq_refl eq_refl)))
    as (fs & Hmain & Hcam & Hfps & _).
  exists fs. split; [exact Hmain|]. split; [exact Hcam | exact Hfps].
Defined.

End VideoStreamFacts.

(** ** Properties of agent.py *)

Module AgentFacts.

Import Agent.

Lemma difference_empty (X Y : gset string) : X ∖ Y = ∅ <-> X ⊆ Y.
Proof.
  split.
  - intros Hempty x Hx. destruct (decide (x ∈ Y)) as [|Hout]; [done|].
    assert (Hin : x ∈ X ∖ Y) by (apply elem_of_difference; done).
    rewrite Hempty in Hin. by apply not_elem_of_empty in Hin.
  - intros Hsub. apply leibniz_equiv. intros x. split.
    + intros [Hx Hout]%elem_of_difference. destruct Hout. by apply Hsub.
    + by intros ?%not_elem_of_empty.
Qed.

Lemma nothing_missing (config : gmap string Value) :
  required_keys ∖ dom config = ∅ <-> required_keys ⊆ dom config.
Proof. apply difference_empty. Qed.

Lemma required_lookup (config : gmap string Value) (k : string) :
  required_keys ⊆ dom config -> k ∈ required_keys -> is_Some (config !! k).
Proof. intros Hsub Hk. apply elem_of_dom. by apply Hsub. Qed.





End AgentFacts.

(** ** More on video_stream.py: the thread, the device and the stream *)

Module VideoStreamMore.

Import VideoStream VideoStreamTrace.

Section Thread.

Context {cv : OpenCV}.

Implicit Types (w : World) (c : Cycle) (cs : list Cycle) (fs : FrameSource).

Lemma count_sleeps_app (l1 l2 : list Event) :
  count_sleeps (l1 ++ l2) = (count_sleeps l1 + count_sleeps l2)%nat.
Proof. induction l1 as [|[] l1 IH]; simpl; by rewrite ?IH. Qed.

Lemma count_encodes_app (l1 l2 : list Event) :
  count_encodes (l1 ++ l2) = (count_encodes l1 + count_encodes l2)%nat.
Proof. induction l1 as [|[] l1 IH]; simpl; by rewrite ?IH. Qed.

Lemma count_releases_app (l1 l2 : list Event) :
  count_releases (l1 ++ l2) = (count_releases l1 + count_releases l2)%nat.
Proof. induction l1 as [|[] l1 IH]; simpl; by rewrite ?IH. Qed.

Lemma count_hw_reads_app (l1 l2 : list Event) :
  count_hw_reads (l1 ++ l2) = (count_hw_reads l1 + count_hw_reads l2)%nat.
Proof. induction l1 as [|[] l1 IH]; simpl; by rewrite ?IH. Qed.

Lemma encoded_ok_app (l1 l2 : list Event) :
  encoded_ok (l1 ++ l2) = encoded_ok l1 ++ encoded_ok l2.
Proof.
  induction l1 as [|[| |f [b|]| | |] l1 IH]; simpl; by rewrite ?IH.
Qed.

Lemma encoded_ok_bound (l : list Event) :
  (length (encoded_ok l) <= count_encodes l)%nat.
Proof. induction l as [|[| |f [b|]| | |] l IH]; simpl; lia. Qed.

(** *** One pass, entry by entry *)

Lemma pass_trace c w : exists evs, pass_accounts (loop_body c w) w evs.
Proof.
  unfold loop_body, encode_publish_sleep, sleep_cycle, pass_accounts.
  destruct (_simulation_mode (self w)); [|destruct (cap_read c) as [frame|]];
    cbn zeta;
    repeat match goal with
      | |- context [imencode c ?f] => destruct (imencode c f) as [e|[b|]]
      end; simpl;
    try (destruct (PrimFloat.eqb (simulation_fps (self w)) 0);
         [|destruct (time_sleep c (1 / simulation_fps (self w))%float)]);
    simpl;
    (eexists; split; [rewrite <- ?app_assoc; simpl; reflexivity|]);
    simpl; repeat split; lia.
Qed.

(** A pass made on answers that raise nothing, at a rate other than
    zero, does not raise. *)
Lemma quiet_pass c w :
  PrimFloat.eqb (simulation_fps (self w)) 0 = false ->
  (forall f, exists r, imencode c f = inr r) ->
  time_sleep c (1 / simulation_fps (self w))%float = None ->
  exists w', loop_body c w = Next w'.
Proof.
  intros Hz Henc Hnap.
  unfold loop_body, encode_publish_sleep, sleep_cycle.
  destruct (_simulation_mode (self w)); [|destruct (cap_read c) as [frame|]];
    cbn zeta;
    repeat match goal with
      | |- context [imencode c ?f] =>
          let r := fresh "r" in
          destruct (Henc f) as [r ->]; destruct r as [b|]
      end; simpl; rewrite ?Hz, ?Hnap; by eauto.
Qed.

(** *** A run, entry by entry *)

Lemma run_trace cs : forall w,
  let o := capture_while cs w in
  exists evs,
    log (world_of o) = log w ++ evs
    /\ reads (cap (world_of o)) = (reads (cap w) + count_hw_reads evs)%nat
    /\ props (cap (world_of o)) = props (cap w)
    /\ published evs = encoded_ok evs
    /\ count_releases evs = 0%nat
    /\ (count_hw_reads evs + count_synth evs <= length cs)%nat
    /\ (count_encodes evs <= length cs)%nat
    /\ match o with
       | Crashed _ _ => count_encodes evs = S (count_sleeps evs)
       | _ => count_sleeps evs = count_encodes evs
       end.
Proof.
  induction cs as [|c cs IH]; intros w; simpl.
  { exists []. rewrite app_nil_r. simpl. repeat split; lia. }
  destruct (VideoStreamFacts.stop_seen_frame c w) as (_ & _ & _ & _ & Hc & Hl).
  set (w0 := if stop_called c then with_self stop w else w) in *.
  destruct (_stop_event (self w0)); simpl.
  { exists []. rewrite app_nil_r, Hc, Hl. simpl. repeat split; lia. }
  destruct (pass_trace c w0) as (evs & Hlog & Hreads & Hprops & Hpub & Hrel & Hcnt).
  assert (Hone : (count_hw_reads evs + count_synth evs <= 1)%nat
                 /\ (count_encodes evs <= 1)%nat).
  { revert Hlog. clear. unfold loop_body, encode_publish_sleep, sleep_cycle.
    destruct (_simulation_mode (self w0)); [|destruct (cap_read c) as [frame|]];
      cbn zeta;
      repeat match goal with
        | |- context [imencode c ?f] => destruct (imencode c f) as [e|[b|]]
        end; simpl;
      try (destruct (PrimFloat.eqb (simulation_fps (self w0)) 0);
           [|destruct (time_sleep c (1 / simulation_fps (self w0))%float)]);
      simpl;
      rewrite <- ?app_assoc; simpl; intros <-%app_inv_head; simpl; lia. }
  destruct (loop_body c w0) as [w1|e w1]; simpl in *.
  - destruct (IH w1)
      as (evs2 & Hlog2 & Hreads2 & Hprops2 & Hpub2 & Hrel2 & Hlen2 & Henc2 & Hcnt2).
    exists (evs ++ evs2).
    rewrite Hlog2, Hlog, Hl, Hreads2, Hreads, Hprops2, Hprops, Hc, app_assoc.
    rewrite VideoStreamFacts.published_app, encoded_ok_app, count_releases_app,
      count_hw_reads_app, count_sleeps_app, count_encodes_app, Hpub, Hpub2.
    assert (Hsyn : count_synth (evs ++ evs2)
              = (count_synth evs + count_synth evs2)%nat).
    { clear. induction evs as [|[] evs IHe]; simpl; by rewrite ?IHe. }
    rewrite Hsyn.
    repeat split; try lia.
    destruct (capture_while cs w1); lia.
  - exists evs. rewrite Hlog, Hl, Hreads, Hprops, Hc.
    repeat split; try done; lia.
Qed.

(** The log of a whole call: the run's entries, then the release if one
    was made. *)
Lemma capture_loop_log hw cs fs :
  let o := _capture_loop hw cs fs in
  exists evs,
    log (world_of o)
    = evs ++ match o with
             | Stopped w => if _simulation_mode (self w) then [] else [EvRelease]
             | _ => []
             end
    /\ reads (cap (world_of o)) = count_hw_reads evs
    /\ props (cap (world_of o)) = props (cap (open_device hw fs))
    /\ published evs = encoded_ok evs
    /\ count_releases evs = 0%nat
    /\ (count_hw_reads evs + count_synth evs <= length cs)%nat
    /\ (count_encodes evs <= length cs)%nat
    /\ match o with
       | Crashed _ _ => count_encodes evs = S (count_sleeps evs)
       | _ => count_sleeps evs = count_encodes evs
       end.
Proof.
  unfold _capture_loop.
  destruct (run_trace cs (open_device hw fs))
    as (evs & Hlog & Hreads & Hprops & Hpub & Hrel & Hlen & Henc & Hcnt).
  assert (H0 : log (open_device hw fs) = []
            /\ reads (cap (open_device hw fs)) = 0%nat).
  { unfold open_device. by destruct (negb _). }
  destruct H0 as [H0 H1]. rewrite H0, H1 in *. simpl in *.
  exists evs.
  destruct (capture_while cs (open_device hw fs)) as [w|w|e w]; simpl in *.
  - rewrite app_nil_r. by repeat split.
  - unfold close_device.
    destruct (_simulation_mode (self w)) eqn:Hmode; simpl; rewrite ?Hmode.
    + rewrite app_nil_r. by repeat split.
    + rewrite Hlog. by repeat split.
  - rewrite app_nil_r. by repeat split.
Qed.

(** *** The device handle over a whole call *)

(** X1. [cap.release()] is called at most once in a call of
    [_capture_loop], the log and the handle agree on it, and it is called
    exactly when the thread has left the loop with simulation mode unset. *)
Theorem release_once_iff_stopped_on_hardware hw cs fs :
  let o := _capture_loop hw cs fs in
  releases (cap (world_of o)) = count_releases (log (world_of o))
  /\ (releases (cap (world_of o)) <= 1)%nat
  /\ (releases (cap (world_of o)) = 1%nat
      <-> exists w, o = Stopped w /\ _simulation_mode (self w) = false).
Proof.
  pose proof (VideoStreamFacts.release_count hw cs fs) as Hcount.
  destruct (capture_loop_log hw cs fs) as (evs & Hlog & _ & _ & _ & Hrel & _).
  cbn zeta in *. rewrite Hlog, count_releases_app, Hrel, Hcount.
  destruct (_capture_loop hw cs fs) as [w|w|e w]; simpl.
  - repeat split; try lia. by intros (? & ? & _).
  - destruct (_simulation_mode (self w)) eqn:Hmode; simpl.
    + repeat split; try lia. intros (w' & [= <-] & Hw'). congruence.
    + repeat split; try lia. intros _. by exists w.
  - repeat split; try lia. by intros (? & ? & _).
Qed.

(** The device's count of reads over a session that starts on the device:
    one per pass that asks it. *)
Lemma hardware_run cs : forall w,
  _simulation_mode (self w) = false ->
  _stop_event (self w) = false ->
  reads (cap (world_of (capture_while cs w)))
  = (reads (cap w) + hardware_passes (simulation_fps (self w)) cs)%nat.
Proof.
  induction cs as [|c cs IH]; intros w Hmode Hrun; simpl; [lia|].
  destruct (stop_called c) eqn:Hstop; simpl; [lia|].
  rewrite Hrun. unfold loop_body. rewrite Hmode. cbn zeta.
  destruct (cap_read c) as [frame|] eqn:Hread.
  - unfold encode_publish_sleep, pass_completes.
    destruct (imencode c frame) as [e|r]; [simpl; lia|]. cbn zeta.
    set (w1 := match r with Some _ => _ | None => _ end).
    assert (Hw1 : simulation_fps (self w1) = simulation_fps (self w)
              /\ _simulation_mode (self w1) = false
              /\ _stop_event (self w1) = false
              /\ reads (cap w1) = S (reads (cap w))).
    { subst w1. by destruct r. }
    destruct Hw1 as (Hf & Hm1 & Hs1 & Hr1).
    unfold sleep_cycle. rewrite Hf.
    destruct (PrimFloat.eqb (simulation_fps (self w)) 0); simpl; [lia|].
    destruct (time_sleep c _); simpl; [lia|].
    rewrite IH by done. simpl. rewrite Hf, Hr1. lia.
  - simpl.
    set (w1 := with_self (set_simulation_mode true) _).
    destruct (VideoStreamFacts.synthetic_run cs w1 eq_refl) as (_ & Hc & _).
    cbn zeta in Hc. rewrite Hc. subst w1. simpl. lia.
Qed.

(** X2. How often the device is asked for a frame, from what the loop was
    given: not at all when it did not open, and otherwise once in every
    pass up to the first that finds the stop requested, whose read fails
    or that an exception ends (the last two included).  The handle's
    count is the log's, never more than the number of passes, and the two
    properties set when the device opened (width 640, height 480) are the
    only ones ever set. *)
Theorem device_use_is_accounted hw cs fs :
  let w := world_of (_capture_loop hw cs fs) in
  reads (cap w)
  = (if hw (camera_index fs) && negb (_simulation_mode fs)
        && negb (_stop_event fs)
     then hardware_passes (simulation_fps fs) cs else 0%nat)
  /\ reads (cap w) = count_hw_reads (log w)
  /\ (reads (cap w) <= length cs)%nat
  /\ props (cap w)
     = (if hw (camera_index fs)
        then [(CAP_PROP_FRAME_WIDTH, 640); (CAP_PROP_FRAME_HEIGHT, 480)]
        else []).
Proof.
  cbn zeta. split.
  - assert (Hclose : reads (cap (world_of (_capture_loop hw cs fs)))
                     = reads (cap (world_of
                                (capture_while cs (open_device hw fs))))).
    { unfold _capture_loop.
      destruct (capture_while cs (open_device hw fs)) as [w|w|e w]; simpl;
        try done.
      unfold close_device. by destruct (negb _). }
    rewrite Hclose. unfold open_device, cv2_VideoCapture.
    simpl. destruct (hw (camera_index fs)); simpl.
    + destruct (_simulation_mode fs) eqn:Hmode; simpl.
      * set (w0 := Build_World _ _ _).
        destruct (VideoStreamFacts.synthetic_run cs w0 Hmode) as (_ & Hc & _).
        cbn zeta in Hc. by rewrite Hc.
      * destruct (_stop_event fs) eqn:Hstop; simpl.
        -- destruct cs as [|c cs]; simpl; [done|].
           destruct (stop_called c); simpl; by rewrite ?Hstop.
        -- by rewrite hardware_run.
    + set (w0 := Build_World _ _ _).
      destruct (VideoStreamFacts.synthetic_run cs w0 eq_refl) as (_ & Hc & _).
      cbn zeta in Hc. by rewrite Hc.
  - destruct (capture_loop_log hw cs fs)
      as (evs & Hlog & Hreads & Hprops & _ & _ & Hlen & _ & _).
    cbn zeta in *. rewrite Hlog, Hreads, Hprops, count_hw_reads_app.
    assert (Htail : count_hw_reads
              match _capture_loop hw cs fs with
              | Stopped w => if _simulation_mode (self w) then [] else [EvRelease]
              | _ => []
              end = 0%nat).
    { destruct (_capture_loop hw cs fs) as [w|w|e w]; simpl; try done.
      by destruct (_simulation_mode (self w)). }
    rewrite Htail. repeat split; try lia.
    unfold open_device, cv2_VideoCapture. simpl.
    by destruct (hw (camera_index fs)).
Qed.

(** X3. What is published is what the encoder returned: the buffers passed
    to [_set_latest] during a call are the buffers of the successful
    [cv2.imencode] calls, in the same order, and there is at most one per
    pass. *)
Theorem publishes_are_the_successful_encodes hw cs fs :
  let w := world_of (_capture_loop hw cs fs) in
  published (log w) = encoded_ok (log w)
  /\ (length (published (log w)) <= length cs)%nat.
Proof.
  destruct (capture_loop_log hw cs fs)
    as (evs & Hlog & _ & _ & Hpub & _ & _ & Henc & _).
  cbn zeta in *. rewrite Hlog, VideoStreamFacts.published_app, encoded_ok_app.
  assert (Htail : forall o : Outcome,
            published match o with
                      | Stopped w => if _simulation_mode (self w) then []
                                     else [EvRelease]
                      | _ => []
                      end = []
            /\ encoded_ok match o with
                          | Stopped w => if _simulation_mode (self w) then []
                                         else [EvRelease]
                          | _ => []
                          end = []).
  { intros [w|w|e w]; simpl; try done. by destruct (_simulation_mode (self w)). }
  destruct (Htail (_capture_loop hw cs fs)) as [-> ->].
  rewrite !app_nil_r. split; [done|].
  rewrite Hpub. pose proof (encoded_ok_bound evs). lia.
Qed.

(** *** Stopping *)

(** X4. Once [stop()] has been called, the loop leaves at its next test of
    the condition: whatever passes were still to come and whatever the
    device and the encoder would have answered, nothing more is acquired,
    encoded, published or slept; the only further entry is the release,
    made when simulation mode is unset. *)
Theorem stop_ends_the_loop hw fs pre c post w1 :
  capture_while pre (open_device hw fs) = Running w1 ->
  stop_called c = true \/ _stop_event (self w1) = true ->
  exists w,
    _capture_loop hw (pre ++ c :: post) fs = Stopped w
    /\ _stop_event (self w) = true
    /\ _latest_jpeg (self w) = _latest_jpeg (self w1)
    /\ log w = log w1
                ++ (if _simulation_mode (self w1) then [] else [EvRelease]).
Proof.
  intros Hrun Hstop. unfold _capture_loop.
  rewrite VideoStreamFacts.capture_while_app, Hrun. simpl.
  set (w0 := if stop_called c then with_self stop w1 else w1).
  assert (Hset : _stop_event (self w0) = true).
  { subst w0. destruct (stop_called c); [done|]. by destruct Hstop. }
  destruct (VideoStreamFacts.stop_seen_frame c w1) as (Hm & Hj & _ & _ & _ & Hl).
  fold w0 in Hm, Hj, Hl. rewrite Hset.
  exists (close_device w0). split; [done|]. unfold close_device.
  rewrite Hm. destruct (_simulation_mode (self w1)); simpl.
  - by rewrite app_nil_r.
  - by rewrite Hl.
Qed.

(** *** The rate *)

(** X5. When the rate is zero, or [time.sleep] refuses the length
    [1 / fps], the thread dies in its first pass that gets a frame and
    encodes it: the buffer is published if there is one, and then
    [1 / self.simulation_fps] raises [ZeroDivisionError] at a rate of zero,
    and [time.sleep] raises its own exception otherwise.  No sleep is
    made, the passes still to come are not, and the device is not
    released. *)
Theorem refused_sleep_ends_the_thread c rest w frame r e :
  (PrimFloat.eqb (simulation_fps (self w)) 0 = true
   /\ e = Py.ZeroDivisionError)
  \/ (PrimFloat.eqb (simulation_fps (self w)) 0 = false
      /\ time_sleep c (1 / simulation_fps (self w))%float = Some e) ->
  _stop_event (self w) = false ->
  stop_called c = false ->
  acquire c w = Some frame ->
  imencode c frame = inr r ->
  exists w',
    capture_while (c :: rest) w = Crashed e w'
    /\ _latest_jpeg (self w')
       = match r with
         | Some b => Some b
         | None => _latest_jpeg (self w)
         end
    /\ published (log w') = published (log w) ++ option_list r
    /\ releases (cap w') = releases (cap w)
    /\ count_sleeps (log w') = count_sleeps (log w).
Proof.
  intros Hrate Hrun Hstop Hacq Henc. simpl. rewrite Hstop, Hrun.
  assert (Hbody : loop_body c w
            = encode_publish_sleep c frame
                (if _simulation_mode (self w) then emit (EvSynth frame) w
                 else emit (EvHwRead (Some frame)) (with_cap cap_count_read w))).
  { unfold acquire in Hacq. unfold loop_body.
    destruct (_simulation_mode (self w)).
    - by injection Hacq as <-.
    - by rewrite Hacq. }
  rewrite Hbody. unfold encode_publish_sleep. rewrite Henc. cbn zeta.
  set (w1 := match r with Some _ => _ | None => _ end).
  assert (Hw1 : simulation_fps (self w1) = simulation_fps (self w)
            /\ _latest_jpeg (self w1)
               = match r with
                 | Some b => Some b
                 | None => _latest_jpeg (self w)
                 end
            /\ published (log w1) = published (log w) ++ option_list r
            /\ releases (cap w1) = releases (cap w)
            /\ count_sleeps (log w1) = count_sleeps (log w)).
  { subst w1.
    destruct r, (_simulation_mode (self w)); simpl;
      rewrite ?count_sleeps_app, ?VideoStreamFacts.published_app; simpl;
      rewrite ?count_sleeps_app, ?VideoStreamFacts.published_app; simpl;
      rewrite ?app_nil_r; repeat split; lia. }
  destruct Hw1 as (Hf & Hj & Hp & Hr & Hs).
  unfold sleep_cycle. rewrite Hf.
  destruct Hrate as [[-> ->]|[-> ->]]; by exists w1.
Qed.

(** X6. Sleeps follow encodes: where the thread is still in the loop or
    has left it by the stop, every encode attempt was followed by its
    sleep; where an exception ended it, the last attempt was not, and that
    is the only one.  And no exception ends the thread when none is
    handed to it: a rate other than zero, an encoder that returns and a
    clock that takes the length, in every pass. *)
Theorem sleeps_follow_encodes hw cs fs :
  let o := _capture_loop hw cs fs in
  match o with
  | Crashed _ w => count_encodes (log w) = S (count_sleeps (log w))
  | Running w | Stopped w => count_sleeps (log w) = count_encodes (log w)
  end
  /\ (PrimFloat.eqb (simulation_fps fs) 0 = false ->
      Forall (fun c => (forall f, exists r, imencode c f = inr r)
                       /\ time_sleep c (1 / simulation_fps fs)%float = None)
        cs ->
      forall e w, o <> Crashed e w).
Proof.
  cbn zeta. split.
  - destruct (capture_loop_log hw cs fs)
      as (evs & Hlog & _ & _ & _ & _ & _ & _ & Hcnt).
    cbn zeta in *.
    destruct (_capture_loop hw cs fs) as [w|w|e w]; simpl in *;
      rewrite Hlog, count_sleeps_app, count_encodes_app.
    + simpl. lia.
    + destruct (_simulation_mode (self w)); simpl; lia.
    + simpl. lia.
  - intros Hz Hquiet.
    assert (Hrun : forall cs w,
              simulation_fps (self w) = simulation_fps fs ->
              Forall (fun c => (forall f, exists r, imencode c f = inr r)
                               /\ time_sleep c (1 / simulation_fps fs)%float
                                  = None) cs ->
              forall e w', capture_while cs w <> Crashed e w').
    { clear cs Hquiet.
      induction cs as [|c cs IH]; intros w Hw Hall e w'; simpl; [done|].
      apply Forall_cons in Hall as [[Henc Hnap] Hall].
      destruct (VideoStreamFacts.stop_seen_frame c w) as (_ & _ & _ & Hf & _).
      set (w0 := if stop_called c then with_self stop w else w) in *.
      destruct (_stop_event (self w0)); [done|].
      assert (Hw0 : simulation_fps (self w0) = simulation_fps fs) by congruence.
      destruct (quiet_pass c w0) as [w1 Hbody];
        [by rewrite Hw0|done|by rewrite Hw0|].
      destruct (VideoStreamFacts.loop_body_frame c w0) as (_ & _ & _ & Hf1 & _).
      rewrite Hbody in *. simpl in Hf1. apply IH; [congruence|done]. }
    assert (Hopen : simulation_fps (self (open_device hw fs)) = simulation_fps fs).
    { unfold open_device. by destruct (negb _). }
    intros e w. unfold _capture_loop.
    pose proof (Hrun cs _ Hopen Hquiet) as Hno.
    destruct (capture_while cs (open_device hw fs)) as [w1|w1|e1 w1];
      [done|done|exact (Hno e w)].
Qed.

(** *** From start-up to the first part *)

(** X7. With no camera to open and an encoder that works on the generated
    frame, one pass after [main] is enough, whatever was given on the
    command line: no device read was made, and a viewer's next [next()]
    yields at once the part made of the encoded placeholder, also when the
    sleep that follows the publish ends the thread.  With a rate other
    than zero and a clock that takes the length the thread is still
    running. *)
Theorem absent_camera_streams_placeholder
    float_of_str environ argv proc fs hw c b :
  main float_of_str environ argv = inr proc ->
  frame_source proc = Some fs ->
  hw (camera_index fs) = false ->
  stop_called c = false ->
  imencode c _simulation_frame = inr (Some b) ->
  let o := _capture_loop hw [c] fs in
  reads (cap (world_of o)) = 0%nat
  /\ published (log (world_of o)) = [b]
  /\ mjpeg_stream [Some (self (world_of o))] = ([], Some (multipart_section b))
  /\ (PrimFloat.eqb (simulation_fps fs) 0 = false ->
      time_sleep c (1 / simulation_fps fs)%float = None ->
      exists w, o = Running w).
Proof.
  intros Hmain Hsrc Hhw Hstop Henc.
  assert (Hfresh : _stop_event fs = false).
  { revert Hmain Hsrc. unfold main.
    destruct (parse_args float_of_str environ argv) as [e|args]; [done|].
    intros [= <-]. simpl. by intros [= <-]. }
  unfold _capture_loop, open_device, cv2_VideoCapture. simpl.
  rewrite Hhw. simpl. rewrite Hstop. simpl. rewrite Hfresh.
  unfold loop_body. simpl. unfold encode_publish_sleep. rewrite Henc.
  cbn zeta. unfold sleep_cycle. simpl.
  destruct (PrimFloat.eqb (simulation_fps fs) 0);
    [|destruct (time_sleep c (1 / simulation_fps fs)%float)]; simpl;
    (split; [done|]); (split; [done|]); (split; [done|]); try done.
  intros _ _. by eexists.
Qed.

End Thread.

(** *** The generator *)

(** X8. What a [next()] does, in full: it sleeps once for each view that
    has nothing to send, 0.1 s where the global is unset and 0.05 s where
    the slot is empty, and yields the part made of the first frame it
    finds; it yields nothing only if every view it was given is empty. *)
Theorem next_sends_the_first_frame (views : list (option FrameSource)) :
  mjpeg_stream views
  = (backoff_for <$> leading_empty views,
     (fun jpeg => part_head ++ jpeg ++ part_tail) <$> first_frame views).
Proof.
  induction views as [|v views IH]; simpl; [done|].
  destruct v as [fs|]; simpl.
  - destruct (_latest_jpeg fs) as [jpeg|]; simpl; [done|]. by rewrite IH.
  - by rewrite IH.
Qed.

(** A part made of a JPEG reads back as that JPEG, whatever bytes the JPEG
    has (also a boundary or a line end); only the bytes of a well-formed
    part are read as one; a part is 39 bytes longer than its JPEG. *)
Lemma part_payload_of_part (jpeg : bytes) :
  part_payload (part_head ++ jpeg ++ part_tail) = Some jpeg
  /\ length (part_head ++ jpeg ++ part_tail) = (length jpeg + 39)%nat
  /\ (forall part, part_payload part = Some jpeg ->
                   part = part_head ++ jpeg ++ part_tail).
Proof.
  split; [|split].
  - unfold part_payload. cbn zeta.
    rewrite drop_app_length, take_app_length, length_app.
    replace (length jpeg + length part_tail - length part_tail)%nat
      with (length jpeg) by lia.
    rewrite drop_app_length, take_app_length.
    by rewrite decide_True.
  - rewrite !length_app. simpl. lia.
  - intros part. unfold part_payload. cbn zeta.
    set (body := drop (length part_head) part).
    set (n := (length body - length part_tail)%nat).
    destruct (decide _) as [[Hhead Htail]|]; [|done].
    intros [= <-].
    rewrite <- Htail, take_drop. subst body.
    rewrite <- Hhead at 1. by rewrite take_drop.
Qed.

(** X9. What [mjpeg_stream] yields can be read back: the bytes between the
    fixed head and tail of a yielded part are exactly the bytes that were
    in the slot of the frame source the yielding pass read, whatever bytes
    they are, and the part is 39 bytes longer than they are. *)
Theorem yielded_part_reads_back views sleeps part :
  mjpeg_stream views = (sleeps, Some part) ->
  exists fs jpeg,
    views !! length sleeps = Some (Some fs)
    /\ fst (get_latest_jpeg fs) = Some jpeg
    /\ part_payload part = Some jpeg
    /\ length part = (length jpeg + 39)%nat.
Proof.
  intros Hrun.
  destruct (VideoStreamFacts.mjpeg_stream_yields _ _ _ Hrun)
    as (fs & jpeg & Hview & Hslot & -> & _).
  destruct (part_payload_of_part jpeg) as (Hback & Hlen & _).
  by exists fs, jpeg.
Qed.

(** *** Start-up failures *)



Lemma stop_ends_the_loop_witness :
  exists w,
    _capture_loop (cv := Samples.toy_cv) Samples.camera_present
      ([Samples.good_pass] ++ Samples.stop_pass :: [Samples.good_pass])
      Samples.fresh = Stopped w
    /\ _stop_event (self w) = true.
Proof.
  destruct (stop_ends_the_loop (cv := Samples.toy_cv) Samples.camera_present
              Samples.fresh [Samples.good_pass] Samples.stop_pass
              [Samples.good_pass] _ eq_refl (or_introl eq_refl))
    as (w & Hrun & Hset & _).
  by exists w.
Defined.

Lemma refused_sleep_ends_the_thread_witness :
  exists w',
    capture_while (cv := Samples.toy_cv) [Samples.good_pass; Samples.good_pass]
      (open_device Samples.camera_present (__init__ 0 0%float))
    = Crashed Py.ZeroDivisionError w'
    /\ _latest_jpeg (self w') = Some Samples.jpeg_a.
Proof.
  destruct (refused_sleep_ends_the_thread (cv := Samples.toy_cv)
              Samples.good_pass [Samples.good_pass]
              (open_device Samples.camera_present (__init__ 0 0%float)) 7%nat
              (Some Samples.jpeg_a) Py.ZeroDivisionError
              (or_introl (conj eq_refl eq_refl)) eq_refl eq_refl eq_refl eq_refl)
    as (w' & Hrun & Hslot & _).
  exists w'. split; [exact Hrun | exact Hslot].
Defined.

(** The same at a rate so small (2^-40 frames a second) that [1 / fps]
    is more than the clock can count: [time.sleep] raises [OverflowError]
    after the first publish. *)
Example tiny_rate_ends_the_thread :
  exists w,
    _capture_loop (cv := Samples.toy_cv) Samples.camera_present
      [Samples.sleep_refuses; Samples.good_pass] (__init__ 0 0x1p-40%float)
    = Crashed Py.OverflowError w
    /\ published (log w) = [Samples.jpeg_a]
    /\ count_sleeps (log w) = 0%nat.
Proof. eexists. split; [reflexivity|]. by vm_compute. Qed.

Lemma sleeps_follow_encodes_witness :
  PrimFloat.eqb (simulation_fps Samples.fresh) 0 = false
  /\ forall e w,
       _capture_loop (cv := Samples.toy_cv) Samples.camera_present
         [Samples.encode_fails; Samples.read_fails; Samples.good_pass]
         Samples.fresh <> Crashed e w.
Proof.
  split; [reflexivity|].
  refine (proj2 (sleeps_follow_encodes (cv := Samples.toy_cv)
                   Samples.camera_present
                   [Samples.encode_fails; Samples.read_fails; Samples.good_pass]
                   Samples.fresh) eq_refl _).
  repeat apply Forall_cons_2; try apply Forall_nil_2;
    (split; [intros f; eexists; reflexivity | reflexivity]).
Defined.

Lemma absent_camera_streams_placeholder_witness :
  mjpeg_stream
    [Some (self (world_of
       (_capture_loop (cv := Samples.toy_cv) Samples.camera_absent
          [Samples.good_pass] (__init__ 0 10%float))))]
  = ([], Some (multipart_section Samples.jpeg_b)).
Proof.
  exact (proj1 (proj2 (proj2
           (absent_camera_streams_placeholder (cv := Samples.toy_cv)
              (fun _ => None) (fun _ => None) no_options _
              (__init__ 0 10%float)
              Samples.camera_absent Samples.good_pass Samples.jpeg_b
              eq_refl eq_refl eq_refl eq_refl eq_refl)))).
Defined.

Lemma release_once_iff_stopped_on_hardware_witness :
  releases (cap (world_of (_capture_loop (cv := Samples.toy_cv)
                             Samples.camera_present
                             [Samples.good_pass; Samples.stop_pass]
                             Samples.fresh))) = 1%nat.
Proof.
  apply (proj2 (proj2 (release_once_iff_stopped_on_hardware
                         (cv := Samples.toy_cv) Samples.camera_present
                         [Samples.good_pass; Samples.stop_pass] Samples.fresh))).
  eexists. split; reflexivity.
Defined.

Lemma yielded_part_reads_back_witness :
  exists fs jpeg,
    [None; Some (_set_latest Samples.jpeg_a Samples.fresh)] !! 1%nat
    = Some (Some fs)
    /\ part_payload (part_head ++ Samples.jpeg_a ++ part_tail) = Some jpeg.
Proof.
  destruct (yielded_part_reads_back
              [None; Some (_set_latest Samples.jpeg_a Samples.fresh)]
              [1 # 10]%Q (part_head ++ Samples.jpeg_a ++ part_tail) eq_refl)
    as (fs & jpeg & Hview & _ & Hback & _).
  exists fs, jpeg. split; [exact Hview | exact Hback].
Defined.

End VideoStreamMore.

(** ** Properties of [os.path.splitext] and [load_config] *)

Module LoadFacts.

Import PyPath AgentRun.

Lemma append_cons (c : ascii) (s t : string) :
  (String c s ++ t)%string = String c (s ++ t)%string.
Proof. reflexivity. Qed.

Lemma append_nil (t : string) : ("" ++ t)%string = t.
Proof. reflexivity. Qed.

Lemma append_nil_r (s : string) : (s ++ "")%string = s.
Proof.
  induction s as [|c s IH]; [done|]. by rewrite append_cons, IH.
Qed.

Lemma take_drop (n : nat) (s : string) : (take n s ++ drop n s)%string = s.
Proof.
  revert s. induction n as [|n IH]; intros [|c r]; simpl; try done.
  by rewrite append_cons, IH.
Qed.

Lemma take_app_length (s t : string) : take (String.length s) (s ++ t) = s.
Proof.
  induction s as [|c s IH]; [done|].
  rewrite append_cons. simpl. by rewrite IH.
Qed.

Lemma drop_app_length (s t : string) : drop (String.length s) (s ++ t) = t.
Proof.
  induction s as [|c s IH]; [by destruct t|].
  by rewrite append_cons.
Qed.

Lemma contains_app (ch : ascii) (s t : string) :
  contains ch (s ++ t) = contains ch s || contains ch t.
Proof.
  induction s as [|c s IH]; [done|]. rewrite append_cons. simpl.
  by destruct (ascii_dec c ch).
Qed.

(** [last_index] finds a [ch], and no [ch] follows it. *)
Lemma last_index_drop (ch : ascii) (s : string) (i : nat) :
  last_index ch s = Some i ->
  exists e, drop i s = String ch e /\ contains ch e = false.
Proof.
  revert i. induction s as [|c s IH]; intros i; simpl; [done|].
  destruct (last_index ch s) as [j|] eqn:Hlast.
  - intros [= <-]. simpl. by apply IH.
  - destruct (ascii_dec c ch) as [->|]; [|done]. intros [= <-]. simpl.
    exists s. split; [done|].
    clear IH. induction s as [|d s IHs]; simpl in *; [done|].
    destruct (last_index ch s); [done|].
    destruct (ascii_dec d ch); [done|]. by apply IHs.
Qed.

Lemma last_index_none (ch : ascii) (s : string) :
  last_index ch s = None <-> contains ch s = false.
Proof.
  induction s as [|c s IH]; simpl; [done|].
  destruct (last_index ch s) as [j|].
  - split; [done|]. destruct (ascii_dec c ch); [done|].
    intros H. apply IH in H. done.
  - destruct (ascii_dec c ch); [done|]. split; [|done]. intros _. by apply IH.
Qed.

(** A [ch] at or after position [i] puts the last [ch] at or after [i]. *)
Lemma contains_drop (ch : ascii) (s : string) (i : nat) :
  contains ch (drop i s) = true ->
  exists j, last_index ch s = Some j /\ (i <= j)%nat.
Proof.
  revert i. induction s as [|c s IH]; intros [|i]; simpl; try done.
  - destruct (last_index ch s) as [j|] eqn:Hlast.
    + intros _. exists (S j). split; [done|lia].
    + destruct (ascii_dec c ch); [intros _; exists 0%nat; split; [done|lia]|].
      intros H. apply last_index_none in Hlast. congruence.
  - intros H. destruct (IH i H) as (j & -> & Hle). exists (S j). split; [done|lia].
Qed.

Lemma last_index_app_absent (ch : ascii) (s t : string) :
  contains ch t = false -> last_index ch (s ++ t) = last_index ch s.
Proof.
  intros Ht. induction s as [|c s IH].
  - rewrite append_nil. by apply last_index_none.
  - rewrite append_cons. simpl. by rewrite IH.
Qed.

Lemma last_index_app_here (ch : ascii) (s t : string) :
  contains ch t = false ->
  last_index ch (s ++ String ch t) = Some (String.length s).
Proof.
  intros Ht. induction s as [|c s IH].
  - rewrite append_nil. simpl. apply last_index_none in Ht. rewrite Ht.
    by destruct (ascii_dec ch ch).
  - rewrite append_cons. simpl. by rewrite IH.
Qed.

Lemma last_index_bound (ch : ascii) (s : string) (i : nat) :
  last_index ch s = Some i -> (i < String.length s)%nat.
Proof.
  revert i. induction s as [|c s IH]; intros i; simpl; [done|].
  destruct (last_index ch s) as [j|].
  - intros [= <-]. specialize (IH j eq_refl). lia.
  - destruct (ascii_dec c ch); [|done]. intros [= <-]. lia.
Qed.

(** X11. [os.path.splitext] only cuts: the two halves put together are the
    path.  The extension is empty, or it is a dot followed by characters
    among which there is neither a dot nor a slash. *)
Theorem splitext_cuts_at_the_last_dot (p : string) :
  let '(root, ext) := splitext p in
  (root ++ ext)%string = p
  /\ (ext = ""
      \/ exists e, ext = String "." e
                   /\ contains "." e = false /\ contains "/" e = false).
Proof.
  unfold splitext, rfind.
  destruct (last_index "." p) as [d|] eqn:Hdot; simpl.
  - destruct (_ && _) eqn:Hcut.
    + rewrite Nat2Z.id. split; [apply take_drop|]. right.
      destruct (last_index_drop _ _ _ Hdot) as (e & He & Hnodot).
      exists e. split; [done|]. split; [done|].
      destruct (contains "/" e) eqn:Hslash; [|done]. exfalso.
      assert (Hin : contains "/" (drop d p) = true).
      { rewrite He. simpl. by destruct (ascii_dec "." "/"). }
      destruct (contains_drop _ _ _ Hin) as (j & Hj & Hle).
      rewrite Hj in Hcut. apply andb_prop in Hcut as [Hlt _].
      apply Z.ltb_lt in Hlt.
      assert (j <> d).
      { intros ->. destruct (last_index_drop _ _ _ Hj) as (e' & He' & _).
        rewrite He in He'. done. }
      lia.
    + split; [apply append_nil_r|by left].
  - assert (Hnever : (match last_index "/" p with
                       | Some i => Z.of_nat i
                       | None => -1
                       end <? -1)%Z = false).
    { apply Z.ltb_ge. destruct (last_index "/" p); lia. }
    rewrite Hnever. simpl. split; [apply append_nil_r|by left].
Qed.

Lemma drop_app_le (i : nat) (s t : string) :
  (i <= String.length s)%nat -> drop i (s ++ t) = (drop i s ++ t)%string.
Proof.
  revert s. induction i as [|i IH]; intros [|c s] Hle; try done.
  - simpl in Hle. lia.
  - rewrite append_cons. simpl. apply IH. simpl in Hle. lia.
Qed.

Lemma length_drop (i : nat) (s : string) :
  String.length (drop i s) = (String.length s - i)%nat.
Proof.
  revert s. induction i as [|i IH]; intros [|c s]; simpl; done.
Qed.

Lemma contains_from_last (ch : ascii) (s : string) (d i : nat) :
  last_index ch s = Some d -> (i <= d)%nat -> contains ch (drop i s) = true.
Proof.
  revert d i. induction s as [|c s IH]; intros d i; simpl; [done|].
  destruct i as [|i]; simpl.
  - destruct (last_index ch s) as [j|] eqn:Hlast.
    + intros _ _. destruct (ascii_dec c ch); [done|]. by apply (IH j 0%nat); [|lia].
    + destruct (ascii_dec c ch); [done|]. done.
  - destruct (last_index ch s) as [j|] eqn:Hlast.
    + intros [= <-] Hle. apply (IH j i); [done|lia].
    + destruct (ascii_dec c ch); [|done]. intros [= <-]. lia.
Qed.

Lemma last_index_endswith (ch : ascii) (s : string) :
  endswith ch s = true -> last_index ch s = Some (String.length s - 1)%nat.
Proof.
  induction s as [|c s IH]; simpl; [done|].
  destruct s as [|c' s'].
  - simpl. by destruct (ascii_dec c ch).
  - intros H. rewrite (IH H). simpl. f_equal. lia.
Qed.

Lemma lower_cons (c : ascii) (s : string) :
  lower (String c s) = String (lower_char c) (lower s).
Proof. reflexivity. Qed.

(** A last component that is a name, a dot and a suffix splits there. *)
Lemma splitext_extension (stem e : string) :
  contains "." e = false ->
  contains "/" e = false ->
  has_non_dot (basename stem) = true ->
  splitext (stem ++ String "." e) = (stem, String "." e).
Proof.
  intros Hdot Hslash Hname. unfold splitext, rfind.
  rewrite last_index_app_here by done.
  rewrite last_index_app_absent
    by (simpl; by destruct (ascii_dec "." "/")).
  assert (Hsep : (Z.to_nat (match last_index "/" stem with
                            | Some i => Z.of_nat i
                            | None => -1
                            end + 1) <= String.length stem)%nat
            /\ (match last_index "/" stem with
                | Some i => Z.of_nat i
                | None => -1
                end <? Z.of_nat (String.length stem))%Z = true).
  { destruct (last_index "/" stem) as [j|] eqn:Hj.
    - apply last_index_bound in Hj. split; [lia|]. apply Z.ltb_lt. lia.
    - split; [simpl; lia|]. apply Z.ltb_lt. lia. }
  destruct Hsep as [Hle Hlt]. rewrite Hlt, Nat2Z.id. simpl.
  unfold slice. rewrite drop_app_le by done.
  rewrite <- (length_drop _ stem), take_app_length.
  unfold basename, rfind in Hname. rewrite Hname.
  by rewrite take_app_length, drop_app_length.
Qed.

(** A last component without a dot has no extension. *)
Lemma splitext_plain (p : string) :
  contains "." (basename p) = false -> splitext p = (p, "").
Proof.
  intros Hplain. unfold splitext. unfold basename in Hplain.
  destruct (rfind "/" p <? rfind "." p)%Z eqn:Hlt; [|done].
  exfalso. apply Z.ltb_lt in Hlt. unfold rfind in *.
  destruct (last_index "." p) as [d|] eqn:Hd.
  - rewrite (contains_from_last _ _ d) in Hplain; [done|done|].
    destruct (last_index "/" p); lia.
  - destruct (last_index "/" p); lia.
Qed.

(** A last component that starts with its only dot has no extension. *)
Lemma splitext_dotfile (pre name : string) :
  pre = "" \/ endswith "/" pre = true ->
  contains "." name = false ->
  contains "/" name = false ->
  splitext (pre ++ String "." name) = (pre ++ String "." name, "")%string.
Proof.
  intros Hpre Hdot Hslash. unfold splitext, rfind.
  rewrite last_index_app_here by done.
  rewrite last_index_app_absent
    by (simpl; by destruct (ascii_dec "." "/")).
  assert (Hempty : slice (Z.to_nat (match last_index "/" pre with
                                    | Some i => Z.of_nat i
                                    | None => -1
                                    end + 1))
                     (Z.to_nat (Z.of_nat (String.length pre)))
                     (pre ++ String "." name) = "").
  { unfold slice. rewrite Nat2Z.id. destruct Hpre as [->|Hend].
    - done.
    - rewrite (last_index_endswith _ _ Hend).
      assert (0 < String.length pre)%nat by (destruct pre; simpl in *; [done|lia]).
      replace (Z.to_nat (Z.of_nat (String.length pre - 1) + 1))
        with (String.length pre) by lia.
      by rewrite Nat.sub_diag. }
  rewrite Hempty. simpl. by rewrite andb_false_r.
Qed.

Section OnHost.

Import AgentRun.

Context {host : Host}.

(** X12. [load_config] goes by the part of the file name after its last
    dot, whatever its letter case: [json] is read with [json.load], [yaml]
    and [yml] with [yaml.safe_load] (or refused with [ConfigError] when
    PyYAML is not installed, before the file is opened), and anything
    else is refused with [ConfigError] without the file being opened. *)
Theorem load_config_goes_by_extension (stem e : string) :
  path_exists (stem ++ String "." e) = true ->
  contains "." e = false ->
  contains "/" e = false ->
  has_non_dot (basename stem) = true ->
  load_config (stem ++ String "." e)
  = if bool_decide (lower e = "json") then
      match open_text (stem ++ String "." e) with
      | inl err => inl err
      | inr handle => json_load handle
      end
    else if bool_decide (lower e ∈ ["yaml"; "yml"]) then
      if yaml_installed then
        match open_text (stem ++ String "." e) with
        | inl err => inl err
        | inr handle => yaml_safe_load handle
        end
      else
        inl (RaisedConfigError
               "PyYAML is required for YAML configs. Install pyyaml or use JSON config.")
    else inl (RaisedConfigError "Config must be .json or .yaml").
Proof.
  intros Hexists Hdot Hslash Hname. unfold load_config.
  rewrite Hexists, splitext_extension by done. simpl.
  assert (Hjson : bool_decide (String "." (lower e) ∈ [".json"; ""])
                  = bool_decide (lower e = "json")).
  { apply bool_decide_ext. rewrite !elem_of_cons, elem_of_nil.
    split; [intros [[= ->]|[?|[]]]; done|intros ->; by left]. }
  assert (Hyaml : bool_decide (String "." (lower e) ∈ [".yaml"; ".yml"])
                  = bool_decide (lower e ∈ ["yaml"; "yml"])).
  { apply bool_decide_ext. rewrite !elem_of_cons, !elem_of_nil.
    split; [intros [[= ->]|[[= ->]|[]]]; auto|intros [->|[->|[]]]; auto]. }
  assert (Hlow : lower_char "." = "."%char) by done.
  rewrite Hlow, Hjson, Hyaml.
  destruct (bool_decide (lower e = "json")); [done|].
  destruct (bool_decide (lower e ∈ ["yaml"; "yml"])); [|done].
  by destruct yaml_installed.
Qed.

(** X13. A file whose name has no dot, or starts with its only dot (such
    as [.yaml] in some directory), has no extension for [load_config]: if
    it exists it is read with [json.load], whatever its name says. *)
Theorem load_config_reads_plain_names_as_json (p : string) :
  path_exists p = true ->
  contains "." (basename p) = false
  \/ (exists pre name,
        p = (pre ++ String "." name)%string
        /\ (pre = "" \/ endswith "/" pre = true)
        /\ contains "." name = false /\ contains "/" name = false) ->
  load_config p
  = match open_text p with
    | inl err => inl err
    | inr handle => json_load handle
    end.
Proof.
  intros Hexists Hname. unfold load_config. rewrite Hexists. simpl.
  assert (Hext : splitext p = (p, "")).
  { destruct Hname as [Hplain|(pre & name & -> & Hpre & Hdot & Hslash)].
    - by apply splitext_plain.
    - by apply splitext_dotfile. }
  by rewrite Hext.
Qed.

End OnHost.

Lemma load_config_goes_by_extension_witness :
  load_config (host := AgentSamples.toy_host false) "/etc/dronex/agent.JSON"
  = inr Samples.config_ok
  /\ load_config (host := AgentSamples.toy_host false) "/etc/dronex/agent.yml"
     = inl (AgentRun.RaisedConfigError
              "PyYAML is required for YAML configs. Install pyyaml or use JSON config.").
Proof.
  split.
  - exact (load_config_goes_by_extension (host := AgentSamples.toy_host false)
             "/etc/dronex/agent" "JSON" eq_refl eq_refl eq_refl eq_refl).
  - exact (load_config_goes_by_extension (host := AgentSamples.toy_host false)
             "/etc/dronex/agent" "yml" eq_refl eq_refl eq_refl eq_refl).
Defined.

Lemma load_config_reads_plain_names_as_json_witness :
  load_config (host := AgentSamples.toy_host true) "/home/pi/.agent"
  = inr Samples.config_ok.
Proof.
  apply (load_config_reads_plain_names_as_json
           (host := AgentSamples.toy_host true) "/home/pi/.agent" eq_refl).
  right. exists "/home/pi/", "agent". by repeat split; auto.
Defined.

End LoadFacts.

(** ** More on [validate_config] *)

Module ValidateFacts.

Import Agent.

Lemma rstrip_by_idempotent (p : ascii -> bool) (s : string) :
  Py.rstrip_by p (Py.rstrip_by p s) = Py.rstrip_by p s.
Proof.
  induction s as [|c s IH]; simpl; [done|].
  destruct (Py.rstrip_by p s) as [|d r] eqn:Hr.
  - destruct (p c) eqn:Hc; simpl; [done|]. by rewrite Hc.
  - simpl in *. by rewrite IH.
Qed.

Lemma rstrip_no_trailing (ch : ascii) (s : string) :
  PyPath.endswith ch (Py.rstrip ch s) = false.
Proof.
  unfold Py.rstrip. induction s as [|c s IH]; simpl; [done|].
  destruct (Py.rstrip_by _ s) as [|d r] eqn:Hr.
  - destruct (ascii_dec c ch) as [|Hne]; simpl; [done|].
    by destruct (ascii_dec c ch).
  - done.
Qed.

Lemma upper_char_idempotent (c : ascii) :
  Py.upper_char (Py.upper_char c) = Py.upper_char c.
Proof. destruct c as [[] [] [] [] [] [] [] []]; reflexivity. Qed.

Lemma upper_idempotent (s : string) : Py.upper (Py.upper s) = Py.upper s.
Proof.
  induction s as [|c s IH]; simpl; [done|].
  by rewrite upper_char_idempotent, IH.
Qed.

(** When the function returns: what was in the configuration, and what
    comes out. *)
Lemma validate_returns (config out : gmap string Value) :
  validate_config config = Return out ->
  exists url m ti n,
    required_keys ⊆ dom config
    /\ config !! "DRONEX_URL" = Some url
    /\ config !! "MODE" = Some m
    /\ config !! "TELEMETRY_INTERVAL" = Some ti
    /\ Py.startswith (Py.rstrip "/" (str url)) "https://" = true
    /\ Py.upper (str m) ∈ ["SIMULATION"; "MAVLINK"]
    /\ int ti = inr n
    /\ (0 < n)%Z
    /\ out = <["TELEMETRY_INTERVAL" := VInt n]>
               (<["MODE" := VStr (Py.upper (str m))]>
                  (<["DRONEX_URL" := VStr (Py.rstrip "/" (str url))]> config)).
Proof.
  unfold validate_config.
  destruct (decide (required_keys ∖ dom config = ∅)) as [Hnone|]; [|done].
  apply AgentFacts.nothing_missing in Hnone.
  destruct (config !! "DRONEX_URL") as [url|]; [|done].
  destruct (Py.startswith (Py.rstrip "/" (str url)) "https://") eqn:Hurl;
    [|done]. simpl.
  destruct (config !! "MODE") as [m|]; [|done].
  destruct (bool_decide (Py.upper (str m) ∈ ["SIMULATION"; "MAVLINK"]))
    eqn:Hmode; [|done]. simpl.
  apply bool_decide_eq_true in Hmode.
  destruct (config !! "TELEMETRY_INTERVAL") as [ti|] eqn:Hti.
  - simpl. destruct (int ti) as [e|n] eqn:Hint; [done|].
    destruct (Z.leb_spec n 0); [done|]. intros [= <-].
    by exists url, m, ti, n.
  - exfalso. assert (Hin : "TELEMETRY_INTERVAL" ∈ dom config).
    { apply Hnone. unfold required_keys. set_solver. }
    apply elem_of_dom in Hin as [? Hin]. congruence.
Qed.

(** When the checks pass the function returns. *)
Lemma validate_accepts (config : gmap string Value) url m ti n :
  required_keys ⊆ dom config ->
  config !! "DRONEX_URL" = Some url ->
  config !! "MODE" = Some m ->
  config !! "TELEMETRY_INTERVAL" = Some ti ->
  Py.startswith (Py.rstrip "/" (str url)) "https://" = true ->
  Py.upper (str m) ∈ ["SIMULATION"; "MAVLINK"] ->
  int ti = inr n ->
  (0 < n)%Z ->
  validate_config config
  = Return (<["TELEMETRY_INTERVAL" := VInt n]>
              (<["MODE" := VStr (Py.upper (str m))]>
                 (<["DRONEX_URL" := VStr (Py.rstrip "/" (str url))]> config))).
Proof.
  intros Hdom Hu Hm Ht Hurl Hmode Hint Hpos. unfold validate_config.
  rewrite decide_True by by apply AgentFacts.nothing_missing.
  rewrite Hu, Hurl, Hm. simpl.
  rewrite bool_decide_eq_true_2 by done. simpl.
  rewrite Ht. simpl. rewrite Hint.
  destruct (Z.leb_spec n 0); [lia|done].
Qed.

(** X14. Validating is a normalisation: applied to a configuration it has
    already returned, [validate_config] returns it unchanged. *)
Theorem validate_config_idempotent (config out : gmap string Value) :
  validate_config config = Return out ->
  validate_config out = Return out.
Proof.
  intros Hrun.
  destruct (validate_returns _ _ Hrun)
    as (url & m & ti & n & Hdom & Hu & Hm & Ht & Hurl & Hmode & Hint & Hpos & ->).
  set (url' := Py.rstrip "/" (str url)) in *.
  set (m' := Py.upper (str m)) in *.
  set (out := <["TELEMETRY_INTERVAL" := VInt n]> _).
  assert (Hou : out !! "DRONEX_URL" = Some (VStr url')).
  { subst out. rewrite lookup_insert_ne by done.
    rewrite lookup_insert_ne by done. apply lookup_insert_eq. }
  assert (Hom : out !! "MODE" = Some (VStr m')).
  { subst out. rewrite lookup_insert_ne by done. apply lookup_insert_eq. }
  assert (Hot : out !! "TELEMETRY_INTERVAL" = Some (VInt n)).
  { subst out. by rewrite lookup_insert_eq. }
  assert (Hodom : required_keys ⊆ dom out).
  { subst out. etrans; [exact Hdom|].
    etrans; [apply dom_insert_subseteq|].
    etrans; [apply dom_insert_subseteq|]. apply dom_insert_subseteq. }
  assert (Hr : Py.rstrip "/" url' = url').
  { subst url'. unfold Py.rstrip. apply rstrip_by_idempotent. }
  assert (Hup : Py.upper m' = m').
  { subst m'. apply upper_idempotent. }
  rewrite (validate_accepts out (VStr url') (VStr m') (VInt n) n); try done.
  - change (str (VStr url')) with url'. change (str (VStr m')) with m'.
    rewrite Hr, Hup. f_equal.
    rewrite (insert_id out "DRONEX_URL") by done.
    rewrite (insert_id out "MODE") by done.
    by rewrite (insert_id out "TELEMETRY_INTERVAL").
  - change (str (VStr url')) with url'. by rewrite Hr.
  - change (str (VStr m')) with m'. by rewrite Hup.
Qed.

(** X15. What a returned configuration looks like: [DRONEX_URL] is a
    string that starts with [https://] and does not end with a slash,
    [MODE] is the string [SIMULATION] or [MAVLINK], [TELEMETRY_INTERVAL]
    is a positive integer, and [DRONE_ID] and [DRONE_TOKEN] are there, as
    they were given. *)
Theorem returned_config_is_normal (config out : gmap string Value) :
  validate_config config = Return out ->
  exists url m n,
    out !! "DRONEX_URL" = Some (VStr url)
    /\ Py.startswith url "https://" = true
    /\ PyPath.endswith "/" url = false
    /\ out !! "MODE" = Some (VStr m)
    /\ (m = "SIMULATION" \/ m = "MAVLINK")
    /\ out !! "TELEMETRY_INTERVAL" = Some (VInt n)
    /\ (0 < n)%Z
    /\ is_Some (out !! "DRONE_ID")
    /\ out !! "DRONE_ID" = config !! "DRONE_ID"
    /\ is_Some (out !! "DRONE_TOKEN")
    /\ out !! "DRONE_TOKEN" = config !! "DRONE_TOKEN".
Proof.
  intros Hrun.
  destruct (validate_returns _ _ Hrun)
    as (url & m & ti & n & Hdom & Hu & Hm & Ht & Hurl & Hmode & Hint & Hpos & ->).
  exists (Py.rstrip "/" (str url)), (Py.upper (str m)), n.
  rewrite lookup_insert_eq.
  rewrite (lookup_insert_ne _ "TELEMETRY_INTERVAL" "MODE") by done.
  rewrite lookup_insert_eq.
  rewrite (lookup_insert_ne _ "TELEMETRY_INTERVAL" "DRONEX_URL") by done.
  rewrite (lookup_insert_ne _ "MODE" "DRONEX_URL") by done.
  rewrite lookup_insert_eq.
  rewrite !(lookup_insert_ne _ _ "DRONE_ID") by done.
  rewrite !(lookup_insert_ne _ _ "DRONE_TOKEN") by done.
  assert (Hid : is_Some (config !! "DRONE_ID")).
  { apply elem_of_dom, Hdom. unfold required_keys. set_solver. }
  assert (Htok : is_Some (config !! "DRONE_TOKEN")).
  { apply elem_of_dom, Hdom. unfold required_keys. set_solver. }
  repeat split; try done.
  - apply rstrip_no_trailing.
  - apply elem_of_cons in Hmode as [?|Hmode]; [by left|].
    apply elem_of_cons in Hmode as [?|Hmode]; [by right|].
    by apply elem_of_nil in Hmode.
Qed.

#[local] Instance str_le_total : Total Py.str_le.
Proof.
  intros a b. unfold Py.str_le.
  destruct (String.leb_total a b) as [H|H]; rewrite H; [by left|by right].
Qed.

(** X16. When required keys are missing, whatever else is wrong with the
    configuration, the error names them: the message is
    [Missing config keys: ] followed by the missing required keys, each
    once, in increasing order, separated by comma and space; no other key
    is named. *)
Theorem missing_keys_are_all_reported (config : gmap string Value) (k0 : string) :
  k0 ∈ required_keys ->
  config !! k0 = None ->
  exists ks,
    validate_config config
    = ConfigError ("Missing config keys: " ++ Py.join ", " ks)
    /\ NoDup ks
    /\ Sorted Py.str_le ks
    /\ (forall k, k ∈ ks <-> k ∈ required_keys /\ config !! k = None).
Proof.
  intros Hreq Hnone. exists (sorted (required_keys ∖ dom config)).
  assert (Hperm : sorted (required_keys ∖ dom config)
                  ≡ₚ elements (required_keys ∖ dom config)).
  { apply merge_sort_Permutation. }
  split; [|split; [|split]].
  - unfold validate_config. rewrite decide_False; [done|].
    intros Hempty. apply AgentFacts.nothing_missing in Hempty.
    apply Hempty, elem_of_dom in Hreq as [? ?]. congruence.
  - rewrite Hperm. apply NoDup_elements.
  - apply Sorted_merge_sort. apply _.
  - intros k. rewrite Hperm, elem_of_elements, elem_of_difference.
    by rewrite not_elem_of_dom.
Qed.


Lemma validate_config_idempotent_witness :
  validate_config Samples.config_ok
  = Return (<["TELEMETRY_INTERVAL" := VInt 5]>
              (<["MODE" := VStr "SIMULATION"]>
                 (<["DRONEX_URL" := VStr "https://dronex.example"]>
                    Samples.config_ok)))
  /\ validate_config
       (<["TELEMETRY_INTERVAL" := VInt 5]>
          (<["MODE" := VStr "SIMULATION"]>
             (<["DRONEX_URL" := VStr "https://dronex.example"]>
                Samples.config_ok)))
     = Return (<["TELEMETRY_INTERVAL" := VInt 5]>
                 (<["MODE" := VStr "SIMULATION"]>
                    (<["DRONEX_URL" := VStr "https://dronex.example"]>
                       Samples.config_ok))).
Proof.
  assert (Hrun : validate_config Samples.config_ok
            = Return (<["TELEMETRY_INTERVAL" := VInt 5]>
                        (<["MODE" := VStr "SIMULATION"]>
                           (<["DRONEX_URL" := VStr "https://dronex.example"]>
                              Samples.config_ok)))) by by vm_compute.
  split; [exact Hrun|]. exact (validate_config_idempotent _ _ Hrun).
Defined.

Lemma returned_config_is_normal_witness :
  exists out url,
    validate_config Samples.config_ok = Return out
    /\ out !! "DRONEX_URL" = Some (VStr url)
    /\ PyPath.endswith "/" url = false.
Proof.
  assert (Hrun : validate_config Samples.config_ok
            = Return (<["TELEMETRY_INTERVAL" := VInt 5]>
                        (<["MODE" := VStr "SIMULATION"]>
                           (<["DRONEX_URL" := VStr "https://dronex.example"]>
                              Samples.config_ok)))) by by vm_compute.
  destruct (returned_config_is_normal _ _ Hrun)
    as (url & m & n & Hu & _ & Hend & _).
  eexists _, url. split; [exact Hrun|]. split; assumption.
Defined.

Lemma missing_keys_are_all_reported_witness :
  exists ks,
    validate_config (delete "MODE" Samples.config_ok)
    = ConfigError ("Missing config keys: " ++ Py.join ", " ks)
    /\ NoDup ks.
Proof.
  destruct (missing_keys_are_all_reported (delete "MODE" Samples.config_ok)
              "MODE") as (ks & Hrun & Hnodup & _).
  - apply (bool_decide_unpack ("MODE" ∈ required_keys)). vm_compute. exact I.
  - vm_compute. reflexivity.
  - exists ks. split; assumption.
Defined.


End ValidateFacts.

(** ** Properties of [register_agent] and [main] of the agent *)

Module RegisterFacts.

Import Agent AgentRun.

Lemma posts_app (a b : list Action) : posts (a ++ b) = posts a ++ posts b.
Proof. induction a as [|[] a IH]; simpl; by rewrite ?IH. Qed.

Lemma sleeps_app (a b : list Action) : sleeps (a ++ b) = sleeps a ++ sleeps b.
Proof. induction a as [|[] a IH]; simpl; by rewrite ?IH. Qed.

(** The loop, counted: one request per answer up to the first accepted
    one, one sleep per refused answer. *)
Lemma register_loop_trace (r : Request) (answers : list Answer) :
  snd (register_loop r answers) = existsb accepted answers
  /\ posts (fst (register_loop r answers))
     = replicate (length (refused answers)
                  + (if existsb accepted answers then 1 else 0))%nat r
  /\ sleeps (fst (register_loop r answers))
     = replicate (length (refused answers)) REGISTER_RETRY_SECONDS.
Proof.
  induction answers as [|a answers IH]; simpl; [done|].
  destruct IH as (IH1 & IH2 & IH3).
  destruct a as [status_code text|shown]; simpl.
  - destruct (status_code =? 200)%Z; simpl; [done|].
    destruct (register_loop r answers) as [acts returned]; simpl in *.
    by rewrite IH1, IH2, IH3.
  - destruct (register_loop r answers) as [acts returned]; simpl in *.
    by rewrite IH1, IH2, IH3.
Qed.

(** X18. [register_agent] keeps trying until a response has status 200:
    it returns exactly when some answer is accepted, having sent one
    request per answer up to that one and slept 10 s after each refused
    one, be it a bad status or a network error; every request is the same
    one, to [DRONEX_URL] + [/api/agent/register/], with the bearer token
    and a timeout of 10 s; answers after the accepted one are not asked
    for. *)
Theorem registration_retries_until_accepted
    (info : SystemInfo) (config : gmap string Value) (answers : list Answer)
    (base id m token : Value) :
  config !! "DRONEX_URL" = Some base ->
  config !! "DRONE_ID" = Some id ->
  config !! "MODE" = Some m ->
  config !! "DRONE_TOKEN" = Some token ->
  let r := {| url := (str base ++ "/api/agent/register/")%string;
              headers := [("Authorization", ("Bearer " ++ str token)%string);
                          ("Content-Type", "application/json");
                          ("User-Agent", "DRONEX-Agent/1.0.0")];
              json := {| drone_id := id; agent_version := "1.0.0";
                         mode := m; system := info |};
              timeout := 10 |} in
  exists acts,
    register_agent info config answers = inr (acts, existsb accepted answers)
    /\ posts acts
       = replicate (length (refused answers)
                    + (if existsb accepted answers then 1 else 0))%nat r
    /\ sleeps acts = replicate (length (refused answers)) 10
    /\ register_agent info config
         (refused answers ++ take 1 (drop (length (refused answers)) answers))
       = inr (acts, existsb accepted answers).
Proof.
  intros Hbase Hid Hm Htok r. unfold register_agent.
  rewrite Hbase, Hid, Hm, Htok.
  change {| url := _; headers := build_headers token; json := _; timeout := _ |}
    with r.
  destruct (register_loop_trace r answers) as (H1 & H2 & H3).
  exists (fst (register_loop r answers)).
  split; [by rewrite <- H1; destruct (register_loop r answers)|].
  split; [done|]. split; [done|].
  f_equal. rewrite <- H1. clear.
  induction answers as [|a answers IH]; simpl; [done|].
  destruct a as [status_code text|shown]; simpl.
  - destruct (status_code =? 200)%Z eqn:Hcode; simpl; [by rewrite Hcode|].
    rewrite Hcode. rewrite IH. by destruct (register_loop r answers).
  - rewrite IH. by destruct (register_loop r answers).
Qed.

Lemma startswith_app (s t p : string) :
  Py.startswith s p = true -> Py.startswith (s ++ t) p = true.
Proof.
  unfold Py.startswith. revert s. induction p as [|c p IH]; intros s.
  - by destruct s, t.
  - destruct s as [|d s]; [done|].
    rewrite LoadFacts.append_cons. simpl.
    destruct (ascii_dec c d); [|done]. apply IH.
Qed.

(** The values [register_agent] reads from a validated configuration. *)
Lemma validated_lookups (config out : gmap string Value) :
  validate_config config = Return out ->
  exists u m id token,
    config !! "DRONE_TOKEN" = Some token
    /\ Py.startswith (Py.rstrip "/" (str u)) "https://" = true
    /\ out !! "DRONEX_URL" = Some (VStr (Py.rstrip "/" (str u)))
    /\ out !! "MODE" = Some (VStr (Py.upper (str m)))
    /\ out !! "DRONE_ID" = Some id
    /\ out !! "DRONE_TOKEN" = Some token.
Proof.
  intros Hrun.
  destruct (ValidateFacts.validate_returns _ _ Hrun)
    as (u & m & ti & n & Hdom & Hu & Hm & Ht & Hurl & Hmode & Hint & Hpos & ->).
  destruct (AgentFacts.required_lookup config "DRONE_ID" Hdom) as [id Hid].
  { apply (bool_decide_unpack ("DRONE_ID" ∈ required_keys)). by vm_compute. }
  destruct (AgentFacts.required_lookup config "DRONE_TOKEN" Hdom) as [token Htok].
  { apply (bool_decide_unpack ("DRONE_TOKEN" ∈ required_keys)). by vm_compute. }
  exists u, m, id, token. split; [done|]. split; [done|].
  split; [|split; [|split]].
  - rewrite lookup_insert_ne by done.
    rewrite lookup_insert_ne by done. apply lookup_insert_eq.
  - rewrite lookup_insert_ne by done. apply lookup_insert_eq.
  - by rewrite !lookup_insert_ne.
  - by rewrite !lookup_insert_ne.
Qed.

(** Registering on a validated configuration: the call returns the loop's
    actions, and its requests go to [https://] addresses. *)
Lemma register_after_validate
    (info : SystemInfo) (config out : gmap string Value)
    (answers : list Answer) :
  validate_config config = Return out ->
  exists acts,
    register_agent info out answers = inr (acts, existsb accepted answers)
    /\ length (posts acts)
       = (length (refused answers)
          + (if existsb accepted answers then 1 else 0))%nat
    /\ Forall (fun r => Py.startswith (url r) "https://" = true) (posts acts).
Proof.
  intros Hrun.
  destruct (validated_lookups _ _ Hrun)
    as (u & m & id & token & _ & Hurl & Hou & Hom & Hoid & Hotok).
  unfold register_agent. rewrite Hou, Hoid, Hom, Hotok.
  set (r := {| url := _; headers := _; json := _; timeout := _ |}).
  destruct (register_loop_trace r answers) as (H1 & H2 & _).
  exists (fst (register_loop r answers)).
  split; [by rewrite <- H1; destruct (register_loop r answers)|].
  rewrite H2, length_replicate. split; [done|].
  apply Forall_replicate. subst r. simpl. by apply startswith_app.
Qed.


Section Main.

Context {host : Host}.

(** X20. [main] sends nothing before the configuration is loaded and
    validated: if any request was sent, [load_config] returned a mapping,
    [validate_config] returned on it, and every request went to an
    [https://] address. *)
Theorem no_request_before_validation
    (path : string) (answers : list Answer) (acts : list Action)
    (ending : Ending) :
  main (Some path) answers = (acts, ending) ->
  posts acts <> [] ->
  exists loaded config out,
    load_config path = inr loaded
    /\ as_mapping loaded = Some config
    /\ validate_config config = Return out
    /\ Forall (fun r => Py.startswith (url r) "https://" = true) (posts acts).
Proof.
  unfold main, validate_loaded.
  destruct (load_config path) as [e|loaded] eqn:Hload.
  { destruct e; intros [= <- <-]; done. }
  destruct (as_mapping loaded) as [config|] eqn:Hmap; [|by intros [= <- <-]].
  destruct (validate_config config) as [out|message|e] eqn:Hrun;
    [|by intros [= <- <-]..].
  intros Hmain Hsent. exists loaded, config, out.
  split; [done|]. split; [done|]. split; [done|].
  destruct (register_after_validate get_system_info _ _ answers Hrun)
    as (racts & Hreg & _ & Hurls).
  revert Hmain. rewrite Hreg.
  destruct (out !! "DRONE_ID") as [id|]; [|intros [= <- <-]; done].
  destruct (out !! "MODE") as [m|]; [|intros [= <- <-]; done].
  destruct (existsb accepted answers).
  - destruct (equals_str "SIMULATION" m); intros [= <- <-];
      simpl; rewrite ?posts_app; simpl; by rewrite ?app_nil_r.
  - intros [= <- <-]. simpl. by rewrite ?posts_app.
Qed.

(** X21. The telemetry loop is entered only by a registered agent in
    simulation mode: when [main] reaches [telemetry_loop], the
    configuration it runs on was returned by [validate_config] with [MODE]
    the string [SIMULATION], a response with status 200 was received, and
    the requests sent are the refused ones and that one. *)
Theorem telemetry_needs_simulation_and_registration
    (path : string) (answers : list Answer) (acts : list Action)
    (running : gmap string Value) :
  main (Some path) answers = (acts, InTelemetryLoop running) ->
  exists loaded config,
    load_config path = inr loaded
    /\ as_mapping loaded = Some config
    /\ validate_config config = Return running
    /\ running !! "MODE" = Some (VStr "SIMULATION")
    /\ existsb accepted answers = true
    /\ length (posts acts) = S (length (refused answers)).
Proof.
  unfold main, validate_loaded.
  destruct (load_config path) as [e|loaded] eqn:Hload.
  { destruct e; intros [= <- <-]; done. }
  destruct (as_mapping loaded) as [config|] eqn:Hmap; [|by intros [= <- <-]].
  destruct (validate_config config) as [out|message|e] eqn:Hrun;
    [|by intros [= <- <-]..].
  destruct (register_after_validate get_system_info _ _ answers Hrun)
    as (racts & Hreg & Hcount & _).
  rewrite Hreg.
  destruct (out !! "DRONE_ID") as [id|] eqn:Hid; [|done].
  destruct (out !! "MODE") as [m|] eqn:Hm; [|done].
  destruct (existsb accepted answers) eqn:Hacc; [|done].
  destruct (equals_str "SIMULATION" m) eqn:Hsim; [|done].
  intros [= <- <-]. exists loaded, config.
  split; [done|]. split; [done|]. split; [done|].
  split.
  { destruct m as [| | |s|]; simpl in Hsim; try done.
    apply String.eqb_eq in Hsim. by subst. }
  split; [done|].
  simpl. rewrite ?posts_app. simpl. rewrite Hcount. lia.
Qed.

(** X22. In MAVLINK mode the agent registers and then gives up: with a
    validated configuration whose [MODE] is [MAVLINK] and a server that
    ends up accepting, [main] sends the registration requests, then logs
    that MAVLINK is not implemented and exits with status 1. *)
Theorem mavlink_registers_then_exits
    (path : string) (answers : list Answer) (loaded : Loaded)
    (config out : gmap string Value) :
  load_config path = inr loaded ->
  as_mapping loaded = Some config ->
  validate_config config = Return out ->
  out !! "MODE" = Some (VStr "MAVLINK") ->
  existsb accepted answers = true ->
  exists acts,
    main (Some path) answers = (acts, SystemExit 1)
    /\ length (posts acts) = S (length (refused answers))
    /\ last acts
       = Some (Log ERROR "MAVLINK mode no implementado aún. Usa SIMULATION.").
Proof.
  intros Hload Hmap Hrun Hmode Hacc. unfold main, validate_loaded.
  rewrite Hload, Hmap, Hrun.
  destruct (register_after_validate get_system_info _ _ answers Hrun)
    as (racts & Hreg & Hcount & _).
  destruct (ValidateFacts.validate_returns _ _ Hrun)
    as (u & m & ti & n & Hdom & _ & _ & _ & _ & _ & _ & _ & Hout).
  destruct (AgentFacts.required_lookup config "DRONE_ID" Hdom) as [id Hid].
  { apply (bool_decide_unpack ("DRONE_ID" ∈ required_keys)). by vm_compute. }
  assert (Hoid : out !! "DRONE_ID" = Some id).
  { rewrite Hout. by rewrite !lookup_insert_ne. }
  rewrite Hoid, Hmode, Hreg, Hacc. simpl.
  eexists. split; [done|]. split.
  - simpl. rewrite ?posts_app. simpl.
    rewrite ?app_nil_r, Hcount, Hacc. lia.
  - simpl. rewrite !app_comm_cons. apply last_snoc.
Qed.

End Main.

Lemma registration_retries_until_accepted_witness :
  exists acts,
    register_agent (get_system_info (host := AgentSamples.toy_host false))
      Samples.config_ok AgentSamples.answers_third_time = inr (acts, true)
    /\ length (posts acts) = 3%nat
    /\ sleeps acts = [10; 10].
Proof.
  destruct (registration_retries_until_accepted
              (get_system_info (host := AgentSamples.toy_host false))
              Samples.config_ok AgentSamples.answers_third_time
              (VStr "https://dronex.example/") (VStr "drone-1")
              (VStr "simulation") (VStr "secret")
              eq_refl eq_refl eq_refl eq_refl)
    as (acts & Hrun & Hposts & Hsleeps & _).
  exists acts. split; [exact Hrun|]. split; [by rewrite Hposts|exact Hsleeps].
Defined.


Lemma no_request_before_validation_witness :
  exists acts ending loaded,
    main (host := AgentSamples.toy_host false) (Some "/etc/dronex/agent.JSON")
      AgentSamples.answers_third_time = (acts, ending)
    /\ posts acts <> []
    /\ load_config (host := AgentSamples.toy_host false)
         "/etc/dronex/agent.JSON" = inr loaded.
Proof.
  destruct (main (host := AgentSamples.toy_host false)
              (Some "/etc/dronex/agent.JSON") AgentSamples.answers_third_time)
    as [acts ending] eqn:Hmain.
  assert (Hsent : posts acts <> []).
  { revert Hmain. vm_compute. by intros [= <- _]. }
  destruct (no_request_before_validation (host := AgentSamples.toy_host false)
              _ _ _ _ Hmain Hsent) as (loaded & config & out & Hload & _).
  exists acts, ending, loaded. split; [reflexivity|]. split; assumption.
Defined.

Lemma telemetry_needs_simulation_and_registration_witness :
  exists acts running,
    main (host := AgentSamples.toy_host false) (Some "/etc/dronex/agent.JSON")
      AgentSamples.answers_third_time = (acts, InTelemetryLoop running)
    /\ running !! "MODE" = Some (VStr "SIMULATION").
Proof.
  assert (Hmain : exists acts running,
            main (host := AgentSamples.toy_host false)
              (Some "/etc/dronex/agent.JSON") AgentSamples.answers_third_time
            = (acts, InTelemetryLoop running)).
  { vm_compute. by eexists _, _. }
  destruct Hmain as (acts & running & Hmain).
  destruct (telemetry_needs_simulation_and_registration
              (host := AgentSamples.toy_host false) _ _ _ _ Hmain)
    as (loaded & config & _ & _ & _ & Hmode & _).
  exists acts, running. split; assumption.
Defined.

Lemma mavlink_registers_then_exits_witness :
  exists acts,
    main (host := AgentSamples.toy_host true) (Some "/etc/dronex/agent.yml")
      AgentSamples.answers_third_time = (acts, SystemExit 1)
    /\ length (posts acts) = 3%nat.
Proof.
  assert (Hrun : validate_config AgentSamples.config_mavlink
            = Return (<["TELEMETRY_INTERVAL" := VInt 5]>
                        (<["MODE" := VStr "MAVLINK"]>
                           (<["DRONEX_URL" := VStr "https://dronex.example"]>
                              AgentSamples.config_mavlink)))) by by vm_compute.
  destruct (mavlink_registers_then_exits (host := AgentSamples.toy_host true)
              "/etc/dronex/agent.yml" AgentSamples.answers_third_time
              AgentSamples.config_mavlink AgentSamples.config_mavlink _
              eq_refl eq_refl Hrun ltac:(by vm_compute) eq_refl)
    as (acts & Hmain & Hposts & _).
  exists acts. split; assumption.
Defined.

End RegisterFacts.
